(** * spotify-data-fun: the listen-count aggregator of [parse.py]

    A shallow embedding of [parse.py] and the properties of its
    aggregation model (Artist -> Album -> Track listen counters).

    Conventions of the embedding.
    - A Python [dict] is insertion ordered; it is an association list
      with the two operations the program uses, [dict_get] and
      [dict_set] (assignment keeps the position of a key that is
      already there and appends a new one).
    - Python [int] is [Z].
    - A Python [str] is a [string] whose characters are code points
      below 256.
    - The program runs in a process whose state is [State]: the class
      attribute [Parser.data], the two directories it touches and its
      standard output.  A computation is a function from [State] to an
      [outcome] and a [State]; an exception leaves the state as it was
      when it was raised.
    - The values held in the dictionaries ([Artist], [Album]) have one
      owner each: [Artist()] and [Album()] build fresh dictionaries
      ([default_factory]), so "get, mutate in place, store back" is
      modelled on values. *)

From Stdlib Require Import List String Ascii ZArith Lia Bool.
From Stdlib Require Import Permutation Sorted DecimalString.
Import ListNotations.

Open Scope string_scope.
Open Scope Z_scope.

Set Implicit Arguments.
Set Warnings "-register-all".

(* ===================================================================== *)
(** ** Python values, exceptions, outcomes *)
(* ===================================================================== *)

(** What [json.loads] can return. *)
Inductive pyval : Type :=
| PyNone
| PyBool (b : bool)
| PyInt (n : Z)
| PyFloat (repr : string)
| PyStr (s : string)
| PyList (items : list pyval)
| PyDict (items : list (string * pyval)).

Inductive exn : Type :=
| JSONDecodeError
| TypeError
| KeyError (key : string)
| FileNotFoundError
| IsADirectoryError.

(** [Unmodelled]: execution left the fragment the embedding follows (a
    record field that is neither a [str] nor [None], which the type
    [LogEntry] excludes). *)
Inductive outcome (A : Type) : Type :=
| Ok (a : A)
| Raise (e : exn)
| Unmodelled.

Arguments Ok {A} a.
Arguments Raise {A} e.
Arguments Unmodelled {A}.

Definition obind {A B} (c : outcome A) (k : A -> outcome B) : outcome B :=
  match c with
  | Ok a => k a
  | Raise e => Raise e
  | Unmodelled => Unmodelled
  end.

Declare Scope outcome_scope.
Delimit Scope outcome_scope with outcome.
Notation "x <- c ;; k" := (obind c (fun x => k))
  (at level 61, c at next level, right associativity) : outcome_scope.

(* ===================================================================== *)
(** ** Insertion-ordered dictionaries *)
(* ===================================================================== *)

Section Dict.
Variable V : Type.

Definition dict := list (string * V).

(** [d.get(k)] without a default. *)
Fixpoint dict_get (d : dict) (k : string) : option V :=
  match d with
  | [] => None
  | (k', v) :: d' => if String.eqb k' k then Some v else dict_get d' k
  end.

(** [d.get(k, default)]. *)
Definition dict_get_default (d : dict) (k : string) (default : V) : V :=
  match dict_get d k with
  | Some v => v
  | None => default
  end.

(** [d[k] = v]. *)
Fixpoint dict_set (d : dict) (k : string) (v : V) : dict :=
  match d with
  | [] => [(k, v)]
  | (k', v') :: d' =>
      if String.eqb k' k then (k', v) :: d' else (k', v') :: dict_set d' k v
  end.

Definition keys (d : dict) : list string := map fst d.
Definition values (d : dict) : list V := map snd d.
End Dict.

(* ===================================================================== *)
(** ** Entries and the entry validator *)
(* ===================================================================== *)

Record Entry : Type := mkEntry {
  artist_name : string;
  album_name : string;
  track_name : string
}.

(** [obj[key]] for a [str] key. *)
Definition getitem (obj : pyval) (key : string) : outcome pyval :=
  match obj with
  | PyDict items =>
      match dict_get items key with
      | Some v => Ok v
      | None => Raise (KeyError key)
      end
  | _ => Raise TypeError
  end.

(** The constructor call [Entry(artist_name, album_name, track_name)] on
    three values that are not [None].  On three strings it is the entry.
    On a value that is not a string the code builds the [Entry] all the
    same and goes on with a key that is not a [str]; the embedding,
    whose keys are strings, does not follow the run from there and
    answers [Unmodelled], which is neither a return nor an exception. *)
Definition Entry_new (artist_name album_name track_name : pyval) : outcome (option Entry) :=
  match artist_name, album_name, track_name with
  | PyStr a, PyStr b, PyStr t => Ok (Some (mkEntry a b t))
  | _, _, _ => Unmodelled
  end.

Definition is_None (v : pyval) : bool :=
  match v with
  | PyNone => true
  | _ => false
  end.

Definition to_entry (log_entry : pyval) : outcome (option Entry) :=
  (artist_name <- getitem log_entry "master_metadata_album_artist_name" ;;
   if is_None artist_name then Ok None else
   album_name <- getitem log_entry "master_metadata_album_album_name" ;;
   if is_None album_name then Ok None else
   track_name <- getitem log_entry "master_metadata_track_name" ;;
   if is_None track_name then Ok None else
   Entry_new artist_name album_name track_name)%outcome.

(* ===================================================================== *)
(** ** Albums and artists *)
(* ===================================================================== *)

Module Album.
Record t : Type := mk {
  tracks : dict Z;
  total_listens : Z
}.

(** [Album()]. *)
Definition new : t := {| tracks := []; total_listens := 0 |}.

Definition update (self : t) (entry : Entry) : t :=
  let total := total_listens self + 1 in
  let track := dict_get_default (tracks self) (track_name entry) 0 in
  let track := track + 1 in
  {| tracks := dict_set (tracks self) (track_name entry) track;
     total_listens := total |}.
End Album.

Module Artist.
Record t : Type := mk {
  albums : dict Album.t;
  total_listens : Z
}.

(** [Artist()]. *)
Definition new : t := {| albums := []; total_listens := 0 |}.

Definition update (self : t) (entry : Entry) : t :=
  let total := total_listens self + 1 in
  let album := dict_get_default (albums self) (album_name entry) Album.new in
  let album := Album.update album entry in
  {| albums := dict_set (albums self) (album_name entry) album;
     total_listens := total |}.
End Artist.

Definition Catalog := dict Artist.t.

(* ===================================================================== *)
(** ** The process: state, computations *)
(* ===================================================================== *)

(** A directory entry of [./data]: a regular file, given by what
    [json.loads] makes of its text ([None]: the text is not JSON and
    [json.loads] raises [JSONDecodeError]), or a sub-directory.  A file
    on which reading or parsing fails for another reason (bytes that are
    not UTF-8, a number or a nesting beyond the limits of the
    interpreter) has no representation here. *)
Inductive node : Type :=
| File (src : option pyval)
| SubDirectory.

(** [data_dir]: the listing of [./data] in the order [iterdir] yields it,
    [None] when the directory does not exist.  [out_dir]: [None] when
    [./out] does not exist, [Some None] when it exists without
    [data.json], [Some (Some text)] when [out/data.json] holds [text].
    Where [./data] or [./out] exists it is a directory, and
    [out/data.json], where it exists, is a regular file.
    [Parser_data] is the class attribute [Parser.data]: there is one per
    process, not one per instance. *)
Record State : Type := mkState {
  Parser_data : Catalog;
  cwd : string;
  data_dir : option (list (string * node));
  out_dir : option (option string);
  terminal_columns : Z;
  stdout : list string
}.

Definition M (A : Type) : Type := State -> outcome A * State.

Definition ret {A} (a : A) : M A := fun st => (Ok a, st).

Definition bind {A B} (c : M A) (k : A -> M B) : M B :=
  fun st =>
    match c st with
    | (Ok a, st') => k a st'
    | (Raise e, st') => (Raise e, st')
    | (Unmodelled, st') => (Unmodelled, st')
    end.

Definition lift {A} (c : outcome A) : M A := fun st => (c, st).

Declare Scope proc_scope.
Delimit Scope proc_scope with proc.
Notation "x <- c ;; k" := (bind c (fun x => k))
  (at level 61, c at next level, right associativity) : proc_scope.
Notation "c ;;; k" := (bind c (fun _ => k))
  (at level 61, right associativity) : proc_scope.

(** The state with one component replaced. *)
Definition with_data (st : State) (d : Catalog) : State :=
  {| Parser_data := d; cwd := cwd st; data_dir := data_dir st;
     out_dir := out_dir st; terminal_columns := terminal_columns st;
     stdout := stdout st |}.

Definition with_out (st : State) (o : option (option string)) : State :=
  {| Parser_data := Parser_data st; cwd := cwd st; data_dir := data_dir st;
     out_dir := o; terminal_columns := terminal_columns st;
     stdout := stdout st |}.

Definition with_stdout (st : State) (lines : list string) : State :=
  {| Parser_data := Parser_data st; cwd := cwd st; data_dir := data_dir st;
     out_dir := out_dir st; terminal_columns := terminal_columns st;
     stdout := lines |}.

Definition get_state : M State := fun st => (Ok st, st).

Definition get_data : M Catalog := fun st => (Ok (Parser_data st), st).

Definition set_data (d : Catalog) : M unit := fun st => (Ok tt, with_data st d).

(** A [for] loop over a list. *)
Fixpoint for_each {A} (l : list A) (body : A -> M unit) : M unit :=
  match l with
  | [] => ret tt
  | x :: l' => (body x ;;; for_each l' body)%proc
  end.

(** *** Text *)

Definition LF : string := String "010"%char "".
Definition CR : string := String "013"%char "".
Definition DQ : string := String "034"%char "".

(** [str(n)] for an [int]. *)
Definition str_of_int (n : Z) : string := NilZero.string_of_int (Z.to_int n).

Definition py_len {A} (l : list A) : Z := Z.of_nat (List.length l).

Fixpoint spaces (n : nat) : string :=
  match n with
  | O => ""
  | S n' => " " ++ spaces n'
  end.

(** [s.ljust(width, " ")]. *)
Definition ljust (s : string) (width : Z) : string :=
  s ++ spaces (Z.to_nat (width - Z.of_nat (String.length s))).

(** [print(text, end=e)]. *)
Definition print (text e : string) : M unit :=
  fun st => (Ok tt, with_stdout st (stdout st ++ [text ++ e])).

(** *** Paths *)

(** [str(sub.absolute())] for the entry [name] of [./data]. *)
Definition data_path (st : State) (name : string) : string :=
  cwd st ++ "/data/" ++ name.

Definition is_file (n : node) : bool :=
  match n with
  | File _ => true
  | SubDirectory => false
  end.

(** [Path("data").iterdir()]. *)
Definition iterdir_data : M (list (string * node)) :=
  fun st =>
    match data_dir st with
    | Some entries => (Ok entries, st)
    | None => (Raise FileNotFoundError, st)
    end.

(** [Path(fp).read_text()], for a path inside [./data]. *)
Definition read_text (fp : string) : M (option pyval) :=
  fun st =>
    match data_dir st with
    | None => (Raise FileNotFoundError, st)
    | Some entries =>
        match find (fun e => String.eqb (data_path st (fst e)) fp) entries with
        | Some (_, File src) => (Ok src, st)
        | Some (_, SubDirectory) => (Raise IsADirectoryError, st)
        | None => (Raise FileNotFoundError, st)
        end
    end.

Definition json_loads (src : option pyval) : outcome pyval :=
  match src with
  | Some v => Ok v
  | None => Raise JSONDecodeError
  end.

(** The builtin [list(x)]: the elements of a list, the keys of a dict,
    the characters of a str; anything else is not iterable. *)
Definition py_list (x : pyval) : outcome (list pyval) :=
  match x with
  | PyList items => Ok items
  | PyDict items => Ok (map (fun kv => PyStr (fst kv)) items)
  | PyStr s => Ok (map (fun c => PyStr (String c "")) (list_ascii_of_string s))
  | _ => Raise TypeError
  end.

(* ===================================================================== *)
(** ** The parser *)
(* ===================================================================== *)

Record Parser : Type := mkParser {
  files_to_parse : list string;
  min_width : Z;
  current : Z
}.

Definition term_width : M Z := fun st => (Ok (terminal_columns st), st).

(** [Parser.__init__]: it assigns three instance attributes and leaves
    the class attribute [data] alone. *)
Definition Parser_init : M Parser :=
  (entries <- iterdir_data ;;
   st <- get_state ;;
   let files := map (fun sub => data_path st (fst sub))
                    (filter (fun sub => is_file (snd sub)) entries) in
   width <- term_width ;;
   ret {| files_to_parse := files; min_width := width; current := 1 |})%proc.

(** The fold of one entry into the catalog, the three statements at the
    end of the loop body of [load_dataset]. *)
Definition fold_entry (data : Catalog) (entry : Entry) : Catalog :=
  let artist := dict_get_default data (artist_name entry) Artist.new in
  let artist := Artist.update artist entry in
  dict_set data (artist_name entry) artist.

(** The body of the loop of [load_dataset] for one element of the array;
    [self.data] is the class attribute. *)
Definition load_record (log : pyval) : M unit :=
  (entry <- lift (to_entry log) ;;
   match entry with
   | None => ret tt
   | Some entry =>
       data <- get_data ;;
       set_data (fold_entry data entry)
   end)%proc.

Definition progress_line (self : Parser) (fp : string) : string :=
  ljust ("[" ++ str_of_int (current self) ++ "/"
             ++ str_of_int (py_len (files_to_parse self)) ++ "] Parsing " ++ fp)
        (min_width self).

(** [load_dataset] returns the instance, whose [current] it has
    incremented. *)
Definition load_dataset (self : Parser) (fp : string) : M Parser :=
  (print (progress_line self fp) CR ;;;
   src <- read_text fp ;;
   obj <- lift (obind (json_loads src) py_list) ;;
   for_each obj load_record ;;;
   ret {| files_to_parse := files_to_parse self;
          min_width := min_width self;
          current := current self + 1 |})%proc.

(* ===================================================================== *)
(** ** Finalizing: sorting and serializing *)
(* ===================================================================== *)

(** The builtin [sorted(items, key=key, reverse=True)].  Python's sort is
    stable, also under [reverse=True]: items with equal keys keep their
    order.  A stable sort has one possible result, computed here by
    insertion from the right. *)
Section SortedReverse.
Variable A : Type.
Variable key : A -> Z.

Fixpoint insert_reverse (x : A) (l : list A) : list A :=
  match l with
  | [] => [x]
  | y :: l' => if key x <? key y then y :: insert_reverse x l' else x :: y :: l'
  end.

Definition sorted_reverse (l : list A) : list A :=
  fold_right insert_reverse [] l.
End SortedReverse.

(** [OrderedDict(pairs)]: the pairs assigned one after the other. *)
Definition OrderedDict {V} (pairs : list (string * V)) : dict V :=
  fold_left (fun d kv => dict_set d (fst kv) (snd kv)) pairs [].

(** The documents the program serializes: objects and integers. *)
Inductive json : Type :=
| JInt (n : Z)
| JObject (members : list (string * json)).

(** [dataclasses.asdict]. *)
Definition asdict_Album (a : Album.t) : json :=
  JObject [("tracks", JObject (map (fun kv => (fst kv, JInt (snd kv))) (Album.tracks a)));
           ("total_listens", JInt (Album.total_listens a))].

Definition asdict_Artist (a : Artist.t) : json :=
  JObject [("albums", JObject (map (fun kv => (fst kv, asdict_Album (snd kv))) (Artist.albums a)));
           ("total_listens", JInt (Artist.total_listens a))].

(** *** [json.dumps(output, indent=4)] *)

Definition hex_digit (n : nat) : string :=
  match n with
  | 0 => "0" | 1 => "1" | 2 => "2" | 3 => "3" | 4 => "4"
  | 5 => "5" | 6 => "6" | 7 => "7" | 8 => "8" | 9 => "9"
  | 10 => "a" | 11 => "b" | 12 => "c" | 13 => "d" | 14 => "e"
  | _ => "f"
  end%nat.

(** The replacement of one character by the [json] string encoder with
    [ensure_ascii]: the two-character escapes, then [\u00xx] for what is
    outside the printable ASCII range. *)
Definition escape_char (c : ascii) : string :=
  let n := nat_of_ascii c in
  if Nat.eqb n 92 then "\\"
  else if Nat.eqb n 34 then "\" ++ DQ
  else if Nat.eqb n 8 then "\b"
  else if Nat.eqb n 12 then "\f"
  else if Nat.eqb n 10 then "\n"
  else if Nat.eqb n 13 then "\r"
  else if Nat.eqb n 9 then "\t"
  else if (Nat.ltb n 32 || Nat.ltb 126 n)%bool
       then "\u00" ++ hex_digit (Nat.div n 16) ++ hex_digit (Nat.modulo n 16)
  else String c "".

Fixpoint escape_chars (s : string) : string :=
  match s with
  | EmptyString => ""
  | String c s' => escape_char c ++ escape_chars s'
  end.

Definition encode_basestring_ascii (s : string) : string :=
  DQ ++ escape_chars s ++ DQ.

Definition indent_unit : nat := 4.

Definition newline_indent (level : nat) : string :=
  LF ++ spaces (indent_unit * level).

(** The encoder at nesting depth [level]: an empty object is [{}]; the
    members of any other are written one per line, one level deeper,
    separated by a comma. *)
Fixpoint encode (level : nat) (o : json) : string :=
  match o with
  | JInt n => str_of_int n
  | JObject [] => "{}"
  | JObject members =>
      "{" ++ newline_indent (S level)
      ++ (fix items (first : bool) (ms : list (string * json)) : string :=
            match ms with
            | [] => ""
            | (k, v) :: ms' =>
                (if first then "" else "," ++ newline_indent (S level))
                ++ encode_basestring_ascii k ++ ": " ++ encode (S level) v
                ++ items false ms'
            end) true members
      ++ newline_indent level ++ "}"
  end.

Definition json_dumps (o : json) : string := encode 0 o.

(** *** [Parser.save] *)

(** [Path("out").mkdir(exist_ok=True)]. *)
Definition mkdir_out : M unit :=
  fun st =>
    (Ok tt, with_out st match out_dir st with
                        | None => Some None
                        | Some f => Some f
                        end).

(** [Path("out/data.json").write_text(text)]. *)
Definition write_outfile (text : string) : M unit :=
  fun st =>
    match out_dir st with
    | None => (Raise FileNotFoundError, st)
    | Some _ => (Ok tt, with_out st (Some (Some text)))
    end.

(** The [OrderedDict] that [save] serializes. *)
Definition finalize (data : Catalog) : dict json :=
  OrderedDict
    (map (fun kvp => (fst kvp, asdict_Artist (snd kvp)))
         (sorted_reverse (fun kvp => Artist.total_listens (snd kvp)) data)).

Definition outfile_path (st : State) : string := cwd st ++ "/out/data.json".

Definition save : M unit :=
  (mkdir_out ;;;
   data <- get_data ;;
   let output := finalize data in
   write_outfile (json_dumps (JObject output)) ;;;
   st <- get_state ;;
   print ("Data written to " ++ outfile_path st) LF)%proc.

(* ===================================================================== *)
(** ** [main] and the program *)
(* ===================================================================== *)

(** [Path("data").exists()]. *)
Definition data_exists : M bool :=
  fun st =>
    (Ok (match data_dir st with Some _ => true | None => false end), st).

(** The loop of [main] over [parser.files_to_parse]. *)
Fixpoint load_files (parser : Parser) (files : list string) : M Parser :=
  match files with
  | [] => ret parser
  | file :: files' =>
      (parser' <- load_dataset parser file ;; load_files parser' files')%proc
  end.

Definition missing_input_message : string :=
  "ERROR: Missing input directory " ++ DQ ++ "./data" ++ DQ.

Definition main : M Z :=
  (present <- data_exists ;;
   if negb present then
     print missing_input_message LF ;;; ret 1
   else
     parser <- Parser_init ;;
     load_files parser (files_to_parse parser) ;;;
     print "" LF ;;;
     save ;;;
     ret 0)%proc.

(** A new process in the file system and terminal of [st]: the class
    body of [Parser] has just bound [data] to an empty dict, nothing has
    been printed. *)
Definition boot (st : State) : State := with_stdout (with_data st []) [].

(** [raise SystemExit(main())] in a new process. *)
Definition program (st : State) : outcome Z * State := main (boot st).

(** The exit status of the process: the value [main] returned, or 1 when
    an exception reached the top level. *)
Definition exit_status (r : outcome Z) : option Z :=
  match r with
  | Ok n => Some n
  | Raise _ => Some 1
  | Unmodelled => None
  end.

(* ===================================================================== *)
(** ** Vocabulary of the properties *)
(* ===================================================================== *)

(** *** Counters read off a catalog (0 where the level is absent) *)

Definition artist_listens (data : Catalog) (artist : string) : Z :=
  match dict_get data artist with
  | Some a => Artist.total_listens a
  | None => 0
  end.

Definition albums_of (data : Catalog) (artist : string) : dict Album.t :=
  match dict_get data artist with
  | Some a => Artist.albums a
  | None => []
  end.

Definition album_listens (data : Catalog) (artist album : string) : Z :=
  match dict_get (albums_of data artist) album with
  | Some a => Album.total_listens a
  | None => 0
  end.

Definition tracks_of (data : Catalog) (artist album : string) : dict Z :=
  match dict_get (albums_of data artist) album with
  | Some a => Album.tracks a
  | None => []
  end.

Definition track_listens (data : Catalog) (artist album track : string) : Z :=
  match dict_get (tracks_of data artist album) track with
  | Some n => n
  | None => 0
  end.

Definition has_key {V} (d : dict V) (k : string) : bool :=
  match dict_get d k with
  | Some _ => true
  | None => false
  end.

(** *** Counter consistency *)

Definition sum (l : list Z) : Z := fold_right Z.add 0 l.

Definition Album_consistent (a : Album.t) : Prop :=
  Album.total_listens a = sum (values (Album.tracks a)).

Definition Artist_consistent (a : Artist.t) : Prop :=
  Artist.total_listens a = sum (map Album.total_listens (values (Artist.albums a)))
  /\ Forall Album_consistent (values (Artist.albums a)).

Definition Catalog_consistent (data : Catalog) : Prop :=
  Forall Artist_consistent (values data).

(** *** The entries of a run *)

(** The entries the validator lets through, in the order of the array. *)
Definition valid_entries (logs : list pyval) : list Entry :=
  flat_map (fun log => match to_entry log with
                       | Ok (Some e) => [e]
                       | _ => []
                       end) logs.

Definition node_entries (n : node) : list Entry :=
  match n with
  | File src =>
      match obind (json_loads src) py_list with
      | Ok logs => valid_entries logs
      | _ => []
      end
  | SubDirectory => []
  end.

(** All the entries of a directory listing, file after file. *)
Definition listing_entries (entries : list (string * node)) : list Entry :=
  flat_map (fun e => node_entries (snd e)) entries.

(** A directory entry that the embedding follows to the normal end of
    [load_dataset]: a sub-directory (it is not loaded), or a file that
    parses, can be iterated and on whose elements the validator all
    answers with an entry or a skip.  It is [false] for a file that
    [load_dataset] raises on, and also for a file with a field that is
    neither a [str] nor [None], on which the embedding is silent. *)
Definition loads_cleanly (n : node) : bool :=
  match n with
  | File src =>
      match obind (json_loads src) py_list with
      | Ok logs => forallb (fun log => match to_entry log with
                                       | Ok _ => true
                                       | _ => false
                                       end) logs
      | _ => false
      end
  | SubDirectory => true
  end.

(** The keys of a list in the order of their first occurrence. *)
Definition first_seen (l : list string) : list string :=
  fold_left (fun seen k => if existsb (String.eqb k) seen then seen else (seen ++ [k])%list) l [].

(** [a] occurs before [b] in [l]. *)
Definition precedes {A} (l : list A) (a b : A) : Prop :=
  exists l1 l2 l3, l = (l1 ++ a :: l2 ++ b :: l3)%list.

(** The counter an artist carries in the serialized document. *)
Definition json_total_listens (j : json) : Z :=
  match j with
  | JObject members =>
      match dict_get members "total_listens" with
      | Some (JInt n) => n
      | _ => 0
      end
  | JInt _ => 0
  end.

(** *** Input files *)

(** [json.loads] rejects the contents, or the top-level value it
    returns is not an array. *)
Definition not_a_json_array (src : option pyval) : bool :=
  match src with
  | Some (PyList _) => false
  | _ => true
  end.

(** What [load_dataset] rejects among those: everything but the empty
    object and the empty string, whose [list(...)] is empty. *)
Definition rejected_source (src : option pyval) : bool :=
  match src with
  | Some (PyList _) => false
  | Some (PyDict []) => false
  | Some (PyStr "") => false
  | _ => true
  end.

(** A field of a record as [LogEntry] types it: a [str] or [None]. *)
Definition str_or_None (v : pyval) : bool :=
  match v with
  | PyNone => true
  | PyStr _ => true
  | _ => false
  end.

Definition K_artist : string := "master_metadata_album_artist_name".
Definition K_album : string := "master_metadata_album_album_name".
Definition K_track : string := "master_metadata_track_name".

(** *** The catalog a run computes, as a function of the sources *)

Definition omap {A B} (f : A -> B) (r : outcome A) : outcome B :=
  obind r (fun a => Ok (f a)).

(** The loop of [load_dataset] over the elements of the array, on the
    catalog alone: it stops at the first element the validator raises
    on. *)
Fixpoint ingest_logs (logs : list pyval) (data : Catalog) : outcome unit * Catalog :=
  match logs with
  | [] => (Ok tt, data)
  | log :: logs' =>
      match to_entry log with
      | Ok None => ingest_logs logs' data
      | Ok (Some e) => ingest_logs logs' (fold_entry data e)
      | Raise x => (Raise x, data)
      | Unmodelled => (Unmodelled, data)
      end
  end.

(** What reading a path gives: the source of the file or an exception. *)
Definition source_of (st : State) (fp : string) : outcome (option pyval) :=
  fst (read_text fp st).

Definition ingest_source (src : outcome (option pyval)) (data : Catalog)
  : outcome unit * Catalog :=
  match obind (obind src json_loads) py_list with
  | Ok logs => ingest_logs logs data
  | Raise x => (Raise x, data)
  | Unmodelled => (Unmodelled, data)
  end.

Fixpoint ingest_sources (srcs : list (outcome (option pyval))) (data : Catalog)
  : outcome unit * Catalog :=
  match srcs with
  | [] => (Ok tt, data)
  | src :: srcs' =>
      match ingest_source src data with
      | (Ok _, data') => ingest_sources srcs' data'
      | other => other
      end
  end.

(** The paths [Parser.__init__] collects from a listing. *)
Definition listing_paths (st : State) (entries : list (string * node)) : list string :=
  map (fun sub => data_path st (fst sub)) (filter (fun sub => is_file (snd sub)) entries).

(** The sources of the files of a listing. *)
Definition listing_sources (entries : list (string * node)) : list (outcome (option pyval)) :=
  flat_map (fun e => match snd e with
                     | File src => [Ok src]
                     | SubDirectory => []
                     end) entries.

(** The text [save] writes for a catalog. *)
Definition output_text (data : Catalog) : string :=
  json_dumps (JObject (finalize data)).

(** A parser built and run over its files, the way [main] does it. *)
Definition run_parser : M Parser :=
  (parser <- Parser_init ;; load_files parser (files_to_parse parser))%proc.

(** The instance after [self.current += 1]. *)
Definition next_parser (self : Parser) : Parser :=
  {| files_to_parse := files_to_parse self;
     min_width := min_width self;
     current := current self + 1 |}.

(** The outcome of [main] for the outcome of the loading. *)
Definition main_outcome (r : outcome unit) : outcome Z :=
  match r with
  | Ok _ => Ok 0
  | Raise x => Raise x
  | Unmodelled => Unmodelled
  end.

(** *** Counting entries *)

Definition by_artist (a : string) (e : Entry) : bool :=
  String.eqb (artist_name e) a.

Definition by_album (a b : string) (e : Entry) : bool :=
  (String.eqb (artist_name e) a && String.eqb (album_name e) b)%bool.

Definition by_track (a b t : string) (e : Entry) : bool :=
  (String.eqb (artist_name e) a && String.eqb (album_name e) b
   && String.eqb (track_name e) t)%bool.

Definition count_entries (p : Entry -> bool) (es : list Entry) : Z :=
  Z.of_nat (List.length (filter p es)).

(* ===================================================================== *)
(** ** Concrete inputs *)
(* ===================================================================== *)

(** A record with the three keys of [LogEntry]. *)
Definition log_record (artist album track : pyval) : pyval :=
  PyDict [(K_artist, artist); (K_album, album); (K_track, track)].

(** The four records of the scenario. *)
Definition scenario_logs : list pyval :=
  [log_record (PyStr "A") (PyStr "X") (PyStr "T1");
   log_record (PyStr "A") (PyStr "X") (PyStr "T1");
   log_record (PyStr "A") (PyStr "X") (PyStr "T2");
   log_record PyNone (PyStr "Y") (PyStr "T3")].

(** The document the scenario expects. *)
Definition scenario_output : dict json :=
  [("A", JObject
      [("albums", JObject
          [("X", JObject [("tracks", JObject [("T1", JInt 2); ("T2", JInt 1)]);
                          ("total_listens", JInt 3)])]);
       ("total_listens", JInt 3)])].

Definition quoted (s : string) : string := DQ ++ s ++ DQ.

(** The same document as [json.dumps(..., indent=4)] lays it out. *)
Definition scenario_text : string :=
  String.concat LF
    ["{";
     "    " ++ quoted "A" ++ ": {";
     "        " ++ quoted "albums" ++ ": {";
     "            " ++ quoted "X" ++ ": {";
     "                " ++ quoted "tracks" ++ ": {";
     "                    " ++ quoted "T1" ++ ": 2,";
     "                    " ++ quoted "T2" ++ ": 1";
     "                },";
     "                " ++ quoted "total_listens" ++ ": 3";
     "            }";
     "        },";
     "        " ++ quoted "total_listens" ++ ": 3";
     "    }";
     "}"].

(** A process about to start in a directory with the given listing of
    [./data] and no [./out]. *)
Definition state_with (listing : option (list (string * node))) : State :=
  {| Parser_data := []; cwd := "/home/user/spotify"; data_dir := listing;
     out_dir := None; terminal_columns := 80; stdout := [] |}.

Definition scenario_state : State :=
  state_with (Some [("history.json", File (Some (PyList scenario_logs)))]).

(** Two files and a sub-directory; three artists, two of them listened to
    twice. *)
Definition two_files_state : State :=
  state_with (Some
    [("a.json", File (Some (PyList
        [log_record (PyStr "Low") (PyStr "L1") (PyStr "t");
         log_record (PyStr "First") (PyStr "F1") (PyStr "t");
         log_record (PyStr "Second") (PyStr "S1") (PyStr "t")])));
     ("archive", SubDirectory);
     ("b.json", File (Some (PyList
        [log_record (PyStr "Second") (PyStr "S1") (PyStr "u");
         log_record (PyStr "First") PyNone (PyStr "t");
         log_record (PyStr "First") (PyStr "F2") (PyStr "t")])))]).

(** The state that a run from [two_files_state] ends in. *)
Definition two_files_final : State :=
  Eval vm_compute in snd (program two_files_state).

(** A record that lacks the artist key. *)
Definition record_without_artist : pyval :=
  PyDict [(K_album, PyStr "X"); (K_track, PyStr "T")].

Definition missing_key_state : State :=
  state_with (Some [("history.json", File (Some (PyList [record_without_artist])))]).

(** A file that holds the JSON text [{}], one that holds an empty JSON
    string, one that is not JSON and one that holds a number. *)
Definition empty_object_state : State :=
  state_with (Some [("history.json", File (Some (PyDict [])))]).

Definition empty_string_state : State :=
  state_with (Some [("history.json", File (Some (PyStr "")))]).

Definition not_json_state : State :=
  state_with (Some [("history.json", File None)]).

Definition number_state : State :=
  state_with (Some [("history.json", File (Some (PyInt 7)))]).

Definition no_data_state : State := state_with None.

Definition empty_dir_state : State := state_with (Some []).

Definition a_parser : Parser :=
  {| files_to_parse := ["/home/user/spotify/data/history.json"];
     min_width := 80; current := 1 |}.

Definition an_entry : Entry := mkEntry "A" "X" "T1".

(* ===================================================================== *)
(** ** Further vocabulary *)
(* ===================================================================== *)

(** No level of the catalog is empty and no counter is below 1. *)
Definition Album_populated (a : Album.t) : Prop :=
  Album.tracks a <> [] /\ 1 <= Album.total_listens a
  /\ Forall (fun n => 1 <= n) (values (Album.tracks a)).

Definition Artist_populated (a : Artist.t) : Prop :=
  Artist.albums a <> [] /\ 1 <= Artist.total_listens a
  /\ Forall Album_populated (values (Artist.albums a)).

Definition Catalog_populated (data : Catalog) : Prop :=
  Forall Artist_populated (values data).

(** No key occurs twice, at any of the three levels. *)
Definition Album_keys_unique (a : Album.t) : Prop :=
  NoDup (keys (Album.tracks a)).

Definition Artist_keys_unique (a : Artist.t) : Prop :=
  NoDup (keys (Artist.albums a))
  /\ Forall Album_keys_unique (values (Artist.albums a)).

Definition Catalog_keys_unique (data : Catalog) : Prop :=
  NoDup (keys data) /\ Forall Artist_keys_unique (values data).

(** The keys of a document. *)
Definition json_keys (j : json) : list string :=
  match j with
  | JObject members => keys members
  | JInt _ => []
  end.

(** The member [k] of a document. *)
Definition json_member (j : json) (k : string) : option json :=
  match j with
  | JObject members => dict_get members k
  | JInt _ => None
  end.

(** The state whose input directory has another listing. *)
Definition with_dir (st : State) (listing : option (list (string * node))) : State :=
  {| Parser_data := Parser_data st; cwd := cwd st; data_dir := listing;
     out_dir := out_dir st; terminal_columns := terminal_columns st;
     stdout := stdout st |}.

(** A file whose second element is a number, between two records. *)
Definition partial_state : State :=
  state_with (Some [("history.json", File (Some (PyList
    [log_record (PyStr "A") (PyStr "X") (PyStr "T1");
     PyInt 7;
     log_record (PyStr "A") (PyStr "X") (PyStr "T2")])))]).

(** A good file, a file that is not JSON, a good file. *)
Definition bad_middle_listing : list (string * node) :=
  [("a.json", File (Some (PyList [log_record (PyStr "A") (PyStr "X") (PyStr "T1")])));
   ("b.json", File None);
   ("c.json", File (Some (PyList [log_record (PyStr "B") (PyStr "Y") (PyStr "T2")])))].

Definition bad_middle_state : State := state_with (Some bad_middle_listing).

(** The progress lines of a run over [files]: the [i]-th is
    [[i/n] Parsing path] padded with spaces to [width] and ended by a
    carriage return. *)
Definition numbered_progress (width : Z) (total : Z) (first : nat) (files : list string)
  : list string :=
  map (fun p => ljust ("[" ++ str_of_int (Z.of_nat (fst p)) ++ "/"
                           ++ str_of_int total ++ "] Parsing " ++ snd p) width ++ CR)
      (combine (seq first (List.length files)) files).

(** The listing of [two_files_state] with its two files exchanged. *)
Definition two_files_swapped_state : State :=
  state_with (Some
    [("b.json", File (Some (PyList
        [log_record (PyStr "Second") (PyStr "S1") (PyStr "u");
         log_record (PyStr "First") PyNone (PyStr "t");
         log_record (PyStr "First") (PyStr "F2") (PyStr "t")])));
     ("archive", SubDirectory);
     ("a.json", File (Some (PyList
        [log_record (PyStr "Low") (PyStr "L1") (PyStr "t");
         log_record (PyStr "First") (PyStr "F1") (PyStr "t");
         log_record (PyStr "Second") (PyStr "S1") (PyStr "t")])))]).

(** The records of the scenario spread over two files. *)
Definition scenario_split_state : State :=
  state_with (Some
    [("2023.json", File (Some (PyList
        [log_record (PyStr "A") (PyStr "X") (PyStr "T1");
         log_record PyNone PyNone PyNone;
         log_record (PyStr "A") (PyStr "X") (PyStr "T1")])));
     ("2024.json", File (Some (PyList
        [log_record (PyStr "A") (PyStr "X") (PyStr "T2")])))]).

(** The outcome of the loop of [load_dataset] over the elements of an
    array, apart from the catalog: the exception of the first element
    the validator raises on, if there is one. *)
Fixpoint validate_all (logs : list pyval) : outcome unit :=
  match logs with
  | [] => Ok tt
  | log :: logs' =>
      match to_entry log with
      | Ok _ => validate_all logs'
      | Raise x => Raise x
      | Unmodelled => Unmodelled
      end
  end.

(** The outcome of [load_dataset] on a file with the source [src]. *)
Definition load_outcome (src : option pyval) : outcome unit :=
  obind (obind (json_loads src) py_list) validate_all.

(** [load_dataset] raises on the file: [json.loads] raises, or the value
    cannot be iterated, or the validator raises on an element that no
    element with a field outside [LogEntry] precedes. *)
Definition file_raises (src : option pyval) : bool :=
  match load_outcome src with
  | Raise _ => true
  | _ => false
  end.

(* ===================================================================== *)
(** ** Dictionaries: lookup after assignment *)
(* ===================================================================== *)

Section DictFacts.
Variable V : Type.
Implicit Types (d : dict V) (k : string) (v : V).

Lemma dict_get_set_eq d k v : dict_get (dict_set d k v) k = Some v.
Proof.
  induction d as [|[k' v'] d IH]; simpl.
  - now rewrite String.eqb_refl.
  - destruct (String.eqb k' k) eqn:E; simpl; rewrite E; auto.
Qed.

Lemma dict_get_set_ne d k k' v :
  k' <> k -> dict_get (dict_set d k v) k' = dict_get d k'.
Proof.
  intros Hne. induction d as [|[k0 v0] d IH]; simpl.
  - destruct (String.eqb_spec k k'); congruence.
  - destruct (String.eqb_spec k0 k) as [->|Hk]; simpl.
    + destruct (String.eqb_spec k k'); congruence.
    + destruct (String.eqb k0 k'); auto.
Qed.

Lemma dict_get_set d k k' v :
  dict_get (dict_set d k v) k' = if String.eqb k k' then Some v else dict_get d k'.
Proof.
  destruct (String.eqb_spec k k') as [->|Hne].
  - apply dict_get_set_eq.
  - apply dict_get_set_ne; congruence.
Qed.

Lemma dict_get_None_keys d k : dict_get d k = None <-> ~ In k (keys d).
Proof.
  induction d as [|[k' v'] d IH]; simpl.
  - tauto.
  - destruct (String.eqb_spec k' k) as [->|Hne].
    + split; [discriminate | intros H; exfalso; apply H; now left].
    + rewrite IH. split; [intros H [?|?]; [congruence | tauto] | tauto].
Qed.

Lemma dict_get_Some_In d k v : dict_get d k = Some v -> In (k, v) d.
Proof.
  induction d as [|[k' v'] d IH]; simpl; [discriminate|].
  destruct (String.eqb_spec k' k) as [->|Hne].
  - intros [= ->]. now left.
  - auto.
Qed.

Lemma In_dict_get d k v : NoDup (keys d) -> In (k, v) d -> dict_get d k = Some v.
Proof.
  induction d as [|[k' v'] d IH]; simpl; [tauto|].
  intros Hnd [Heq|Hin].
  - injection Heq as -> ->. now rewrite String.eqb_refl.
  - inversion Hnd as [|? ? Hnotin Hnd']; subst.
    destruct (String.eqb_spec k' k) as [->|Hne].
    + exfalso. apply Hnotin. change (In (fst (k, v)) (map fst d)). now apply in_map.
    + auto.
Qed.

Lemma keys_dict_set d k v :
  keys (dict_set d k v) = if has_key d k then keys d else (keys d ++ [k])%list.
Proof.
  unfold has_key. induction d as [|[k' v'] d IH]; simpl; auto.
  destruct (String.eqb_spec k' k) as [->|Hne]; simpl; auto.
  rewrite IH. destruct (dict_get d k); auto.
Qed.

Lemma NoDup_keys_dict_set d k v : NoDup (keys d) -> NoDup (keys (dict_set d k v)).
Proof.
  intros Hnd. rewrite keys_dict_set. unfold has_key.
  destruct (dict_get d k) eqn:E; auto.
  apply dict_get_None_keys in E.
  apply NoDup_app; auto.
  - constructor; [simpl; tauto | constructor].
  - intros x Hx [<-|[]]. tauto.
Qed.

Lemma Forall_values_dict_set (P : V -> Prop) d k v :
  Forall P (values d) -> P v -> Forall P (values (dict_set d k v)).
Proof.
  intros Hd Hv. induction d as [|[k' v'] d IH]; simpl.
  - constructor; auto.
  - inversion Hd; subst. destruct (String.eqb k' k); simpl; constructor; auto.
Qed.

Lemma Forall_values_dict_get (P : V -> Prop) d k v :
  Forall P (values d) -> dict_get d k = Some v -> P v.
Proof.
  intros Hd Hget. apply dict_get_Some_In in Hget.
  rewrite Forall_forall in Hd. apply Hd.
  change v with (snd (k, v)). now apply in_map.
Qed.

(** Assigning [v] at [k] changes the sum of a measure over the values by
    what [v] measures more than the value it replaces. *)
Lemma sum_values_dict_set (f : V -> Z) d k v :
  sum (map f (values (dict_set d k v)))
  = sum (map f (values d))
    - match dict_get d k with Some x => f x | None => 0 end
    + f v.
Proof.
  induction d as [|[k' v'] d IH]; simpl.
  - lia.
  - destruct (String.eqb k' k); simpl; lia.
Qed.

(** [OrderedDict] of the items of a dict is that dict. *)
Lemma OrderedDict_acc (l acc : dict V) :
  NoDup (keys (acc ++ l)%list) ->
  fold_left (fun d kv => dict_set d (fst kv) (snd kv)) l acc = (acc ++ l)%list.
Proof.
  revert acc. induction l as [|[k v] l IH]; intros acc Hnd; simpl.
  - now rewrite app_nil_r.
  - assert (Hset : dict_set acc k v = (acc ++ [(k, v)])%list).
    { unfold keys in Hnd. rewrite map_app in Hnd. simpl in Hnd.
      apply NoDup_remove_2 in Hnd.
      assert (Hk : ~ In k (keys acc)) by (intros H; apply Hnd, in_or_app; now left).
      clear - Hk. induction acc as [|[k' v'] acc IHa]; simpl; auto.
      simpl in Hk. destruct (String.eqb_spec k' k) as [->|Hne]; [tauto|].
      f_equal. apply IHa. tauto. }
    rewrite Hset, IH; rewrite <- app_assoc; auto.
Qed.

Lemma OrderedDict_id (l : dict V) : NoDup (keys l) -> OrderedDict l = l.
Proof.
  intros Hnd. unfold OrderedDict. now rewrite OrderedDict_acc.
Qed.
End DictFacts.

(* ===================================================================== *)
(** ** The fold of one entry *)
(* ===================================================================== *)

Lemma fold_entry_get_same data e :
  dict_get (fold_entry data e) (artist_name e)
  = Some (Artist.update (dict_get_default data (artist_name e) Artist.new) e).
Proof. unfold fold_entry. apply dict_get_set_eq. Qed.

Lemma fold_entry_get_other data e a :
  a <> artist_name e -> dict_get (fold_entry data e) a = dict_get data a.
Proof. intros H. unfold fold_entry. now apply dict_get_set_ne. Qed.

Lemma albums_of_fold_same data e :
  albums_of (fold_entry data e) (artist_name e)
  = dict_set (albums_of data (artist_name e)) (album_name e)
      (Album.update (dict_get_default (albums_of data (artist_name e)) (album_name e) Album.new) e).
Proof.
  unfold albums_of. rewrite fold_entry_get_same. unfold dict_get_default.
  destruct (dict_get data (artist_name e)); reflexivity.
Qed.

Lemma albums_of_fold_other data e a :
  a <> artist_name e -> albums_of (fold_entry data e) a = albums_of data a.
Proof. intros H. unfold albums_of. now rewrite fold_entry_get_other. Qed.

Lemma tracks_of_fold_same data e :
  tracks_of (fold_entry data e) (artist_name e) (album_name e)
  = dict_set (tracks_of data (artist_name e) (album_name e)) (track_name e)
      (dict_get_default (tracks_of data (artist_name e) (album_name e)) (track_name e) 0 + 1).
Proof.
  unfold tracks_of. rewrite albums_of_fold_same, dict_get_set_eq.
  unfold dict_get_default.
  destruct (dict_get (albums_of data (artist_name e)) (album_name e)); reflexivity.
Qed.

Lemma album_get_fold_other data e a b :
  (a, b) <> (artist_name e, album_name e) ->
  dict_get (albums_of (fold_entry data e) a) b = dict_get (albums_of data a) b.
Proof.
  intros H. destruct (string_dec a (artist_name e)) as [->|Ha].
  - rewrite albums_of_fold_same. apply dict_get_set_ne. congruence.
  - now rewrite albums_of_fold_other.
Qed.

Lemma track_get_fold_other data e a b t :
  (a, b, t) <> (artist_name e, album_name e, track_name e) ->
  dict_get (tracks_of (fold_entry data e) a b) t = dict_get (tracks_of data a b) t.
Proof.
  intros H.
  destruct (string_dec a (artist_name e)) as [->|Ha];
    [destruct (string_dec b (album_name e)) as [->|Hb]|].
  - rewrite tracks_of_fold_same. apply dict_get_set_ne. congruence.
  - unfold tracks_of. rewrite album_get_fold_other; congruence.
  - unfold tracks_of. rewrite album_get_fold_other; congruence.
Qed.

Lemma artist_listens_fold data e a :
  artist_listens (fold_entry data e) a
  = artist_listens data a + (if String.eqb (artist_name e) a then 1 else 0).
Proof.
  unfold artist_listens. destruct (String.eqb_spec (artist_name e) a) as [<-|Hne].
  - rewrite fold_entry_get_same. unfold dict_get_default.
    destruct (dict_get data (artist_name e)); simpl; lia.
  - rewrite fold_entry_get_other by congruence. lia.
Qed.

Lemma album_listens_fold_same data e :
  album_listens (fold_entry data e) (artist_name e) (album_name e)
  = album_listens data (artist_name e) (album_name e) + 1.
Proof.
  unfold album_listens. rewrite albums_of_fold_same, dict_get_set_eq.
  unfold dict_get_default.
  destruct (dict_get (albums_of data (artist_name e)) (album_name e)); simpl; lia.
Qed.

Lemma track_listens_fold_same data e :
  track_listens (fold_entry data e) (artist_name e) (album_name e) (track_name e)
  = track_listens data (artist_name e) (album_name e) (track_name e) + 1.
Proof.
  unfold track_listens. rewrite tracks_of_fold_same, dict_get_set_eq.
  unfold dict_get_default.
  destruct (dict_get (tracks_of data (artist_name e) (album_name e)) (track_name e)); lia.
Qed.

Lemma has_key_dict_set_mono {V} (d : dict V) k k' v :
  has_key d k' = true -> has_key (dict_set d k v) k' = true.
Proof.
  unfold has_key. rewrite dict_get_set.
  destruct (String.eqb k k'); auto.
Qed.

Lemma has_key_dict_set_same {V} (d : dict V) k v : has_key (dict_set d k v) k = true.
Proof. unfold has_key. now rewrite dict_get_set_eq. Qed.

Lemma keys_fold_entry data e :
  keys (fold_entry data e)
  = if has_key data (artist_name e) then keys data
    else (keys data ++ [artist_name e])%list.
Proof. unfold fold_entry. apply keys_dict_set. Qed.

Lemma NoDup_keys_fold_entry data e :
  NoDup (keys data) -> NoDup (keys (fold_entry data e)).
Proof. unfold fold_entry. apply NoDup_keys_dict_set. Qed.

(** *** The fold keeps the counters consistent *)

Lemma Album_update_consistent a e :
  Album_consistent a -> Album_consistent (Album.update a e).
Proof.
  unfold Album_consistent, Album.update. simpl. intros H.
  pose proof (sum_values_dict_set (fun n : Z => n) (Album.tracks a) (track_name e)
                (dict_get_default (Album.tracks a) (track_name e) 0 + 1)) as Hs.
  rewrite !map_id in Hs. rewrite Hs, H.
  unfold dict_get_default. destruct (dict_get (Album.tracks a) (track_name e)); lia.
Qed.

Lemma Album_new_consistent : Album_consistent Album.new.
Proof. reflexivity. Qed.

Lemma Artist_new_consistent : Artist_consistent Artist.new.
Proof. split; [reflexivity | constructor]. Qed.

Lemma Artist_update_consistent a e :
  Artist_consistent a -> Artist_consistent (Artist.update a e).
Proof.
  intros [Htot Hall]. unfold Artist_consistent, Artist.update. simpl.
  assert (Hal : Album_consistent (dict_get_default (Artist.albums a) (album_name e) Album.new)).
  { unfold dict_get_default. destruct (dict_get (Artist.albums a) (album_name e)) eqn:E.
    - eapply Forall_values_dict_get; eauto.
    - apply Album_new_consistent. }
  split.
  - rewrite sum_values_dict_set, Htot. unfold dict_get_default.
    destruct (dict_get (Artist.albums a) (album_name e)); simpl; lia.
  - apply Forall_values_dict_set; auto. now apply Album_update_consistent.
Qed.

Lemma fold_entry_consistent data e :
  Catalog_consistent data -> Catalog_consistent (fold_entry data e).
Proof.
  intros H. unfold Catalog_consistent, fold_entry.
  apply Forall_values_dict_set; auto.
  apply Artist_update_consistent. unfold dict_get_default.
  destruct (dict_get data (artist_name e)) eqn:E.
  - eapply Forall_values_dict_get; eauto.
  - apply Artist_new_consistent.
Qed.

Lemma fold_entries_consistent es data :
  Catalog_consistent data -> Catalog_consistent (fold_left fold_entry es data).
Proof.
  revert data. induction es as [|e es IH]; simpl; intros data H; auto.
  apply IH. now apply fold_entry_consistent.
Qed.

(* ===================================================================== *)
(** ** Runs: what the computations do to the state *)
(* ===================================================================== *)

Lemma with_data_id st : with_data st (Parser_data st) = st.
Proof. now destruct st. Qed.

Lemma with_data_twice st d d' : with_data (with_data st d) d' = with_data st d'.
Proof. reflexivity. Qed.

Lemma bind_assoc {A B C} (c : M A) (k : A -> M B) (k' : B -> M C) st :
  bind (bind c k) k' st = bind c (fun a => bind (k a) k') st.
Proof.
  unfold bind. destruct (c st) as [[a|e|] st1]; auto.
Qed.

Lemma load_record_spec log st :
  load_record log st
  = match to_entry log with
    | Ok None => (Ok tt, st)
    | Ok (Some e) => (Ok tt, with_data st (fold_entry (Parser_data st) e))
    | Raise x => (Raise x, st)
    | Unmodelled => (Unmodelled, st)
    end.
Proof.
  unfold load_record, bind, lift.
  destruct (to_entry log) as [[e|]|x|]; reflexivity.
Qed.

Lemma for_each_load_record logs st :
  for_each logs load_record st
  = (fst (ingest_logs logs (Parser_data st)),
     with_data st (snd (ingest_logs logs (Parser_data st)))).
Proof.
  revert st. induction logs as [|log logs IH]; intros st; simpl.
  - unfold ret. now rewrite with_data_id.
  - unfold bind at 1. rewrite load_record_spec.
    destruct (to_entry log) as [[e|]|x|]; simpl.
    + now rewrite IH.
    + apply IH.
    + now rewrite with_data_id.
    + now rewrite with_data_id.
Qed.

(** Reading depends on the working directory and the listing only. *)
Lemma source_of_env st st' fp :
  cwd st' = cwd st -> data_dir st' = data_dir st ->
  source_of st' fp = source_of st fp.
Proof.
  intros Hc Hd. unfold source_of, read_text, data_path. rewrite Hc, Hd.
  destruct (data_dir st) as [entries|]; auto.
  destruct (find _ entries) as [[? []]|]; auto.
Qed.

Lemma read_text_spec fp st : read_text fp st = (source_of st fp, st).
Proof.
  unfold source_of, read_text.
  destruct (data_dir st) as [entries|]; auto.
  destruct (find _ entries) as [[? []]|]; auto.
Qed.

Lemma load_dataset_spec self fp st :
  load_dataset self fp st
  = (omap (fun _ => next_parser self)
          (fst (ingest_source (source_of st fp) (Parser_data st))),
     with_data (with_stdout st (stdout st ++ [progress_line self fp ++ CR]))
               (snd (ingest_source (source_of st fp) (Parser_data st)))).
Proof.
  unfold load_dataset, bind at 1, print.
  set (st1 := with_stdout st _).
  assert (Hid : with_data st1 (Parser_data st) = st1) by apply (with_data_id st1).
  unfold bind at 1. rewrite read_text_spec.
  replace (source_of st1 fp) with (source_of st fp) by (symmetry; now apply source_of_env).
  unfold ingest_source.
  destruct (source_of st fp) as [src|x|]; simpl; try (now rewrite Hid).
  unfold bind at 1, lift.
  destruct (obind (json_loads src) py_list) as [logs|x|]; simpl; try (now rewrite Hid).
  unfold bind at 1. rewrite for_each_load_record. simpl.
  destruct (ingest_logs logs (Parser_data st)) as [[[]|x|] d]; reflexivity.
Qed.

(** The files of a parser, one after the other: the catalog is the one
    [ingest_sources] computes, the rest of the state is untouched but
    for the progress lines. *)
Lemma load_files_spec files : forall parser st,
  exists lines parser',
    load_files parser files st
    = (omap (fun _ => parser')
            (fst (ingest_sources (map (source_of st) files) (Parser_data st))),
       with_data (with_stdout st (stdout st ++ lines))
                 (snd (ingest_sources (map (source_of st) files) (Parser_data st)))).
Proof.
  induction files as [|file files IH]; intros parser st; simpl.
  - exists [], parser. unfold ret. rewrite app_nil_r. now destruct st.
  - unfold bind. rewrite load_dataset_spec.
    destruct (ingest_source (source_of st file) (Parser_data st)) as [[[]|x|] d] eqn:E; simpl.
    + set (st1 := with_data _ d).
      destruct (IH (next_parser parser) st1) as (lines & p' & Heq).
      exists ((progress_line parser file ++ CR) :: lines), p'.
      rewrite Heq.
      replace (map (source_of st1) files) with (map (source_of st) files)
        by (apply map_ext; intros fp; symmetry; now apply source_of_env).
      subst st1. simpl. unfold with_data, with_stdout. simpl.
      now rewrite <- app_assoc.
    + exists [progress_line parser file ++ CR], parser. reflexivity.
    + exists [progress_line parser file ++ CR], parser. reflexivity.
Qed.

Lemma save_spec st :
  save st
  = (Ok tt,
     with_stdout (with_out st (Some (Some (output_text (Parser_data st)))))
                 (stdout st ++ ["Data written to " ++ outfile_path st ++ LF])).
Proof.
  unfold save, bind, mkdir_out, get_data, write_outfile, get_state, print. simpl.
  destruct (out_dir st); reflexivity.
Qed.
Lemma Parser_init_spec st entries :
  data_dir st = Some entries ->
  Parser_init st
  = (Ok {| files_to_parse := listing_paths st entries;
           min_width := terminal_columns st; current := 1 |}, st).
Proof.
  intros H. unfold Parser_init, bind, iterdir_data, get_state, term_width, ret.
  now rewrite H.
Qed.

Lemma Parser_init_missing st :
  data_dir st = None -> Parser_init st = (Raise FileNotFoundError, st).
Proof.
  intros H. unfold Parser_init, bind, iterdir_data. now rewrite H.
Qed.

(** [Parser.__init__] does not touch the class attribute. *)
Lemma Parser_init_state st : snd (Parser_init st) = st.
Proof.
  destruct (data_dir st) as [entries|] eqn:E.
  - now rewrite (@Parser_init_spec st entries E).
  - now rewrite Parser_init_missing.
Qed.

Lemma main_missing st :
  data_dir st = None ->
  main st = (Ok 1, with_stdout st (stdout st ++ [missing_input_message ++ LF])).
Proof.
  intros H. unfold main, bind, data_exists. rewrite H. reflexivity.
Qed.

Lemma main_spec st entries :
  data_dir st = Some entries ->
  exists lines,
    main st
    = (main_outcome (fst (ingest_sources (map (source_of st) (listing_paths st entries))
                                         (Parser_data st))),
       with_stdout
         (with_out
            (with_data st (snd (ingest_sources (map (source_of st) (listing_paths st entries))
                                               (Parser_data st))))
            (match fst (ingest_sources (map (source_of st) (listing_paths st entries))
                                       (Parser_data st)) with
             | Ok _ => Some (Some (output_text
                          (snd (ingest_sources (map (source_of st) (listing_paths st entries))
                                               (Parser_data st)))))
             | _ => out_dir st
             end))
         (stdout st ++ lines)).
Proof.
  intros H. unfold main. unfold bind at 1, data_exists. rewrite H. simpl.
  unfold bind at 1. rewrite (@Parser_init_spec st entries H).
  unfold bind at 1. cbn [files_to_parse].
  destruct (load_files_spec (listing_paths st entries)
              {| files_to_parse := listing_paths st entries;
                 min_width := terminal_columns st; current := 1 |} st)
    as (lines & p' & Heq).
  rewrite Heq. clear Heq.
  destruct (ingest_sources _ (Parser_data st)) as [[[]|x|] d]; simpl.
  - unfold bind at 1, print. unfold bind at 1. rewrite save_spec.
    exists (lines ++ [("" ++ LF)%string; ("Data written to " ++ outfile_path st ++ LF)%string])%list.
    unfold ret, with_stdout, with_out, with_data, outfile_path. simpl.
    now rewrite <- !app_assoc.
  - exists lines. destruct st; reflexivity.
  - exists lines. destruct st; reflexivity.
Qed.
(** *** Paths and sources *)

Lemma append_inj_l (p a b : string) : (p ++ a = p ++ b)%string -> a = b.
Proof.
  induction p as [|c p IH]; simpl; auto.
  intros [= H]. auto.
Qed.

Lemma data_path_inj st a b : data_path st a = data_path st b -> a = b.
Proof.
  unfold data_path. intros H.
  apply append_inj_l in H. now apply append_inj_l in H.
Qed.

Lemma find_listed st (entries : list (string * node)) name n :
  NoDup (map fst entries) -> In (name, n) entries ->
  find (fun e => String.eqb (data_path st (fst e)) (data_path st name)) entries
  = Some (name, n).
Proof.
  induction entries as [|[name' n'] entries IH]; simpl; [tauto|].
  intros Hnd [Heq|Hin].
  - injection Heq as -> ->. now rewrite String.eqb_refl.
  - inversion Hnd as [|? ? Hnotin Hnd']; subst.
    destruct (String.eqb_spec (data_path st name') (data_path st name)) as [Hp|Hp].
    + apply data_path_inj in Hp. subst name'.
      exfalso. apply Hnotin. change (In (fst (name, n)) (map fst entries)).
      now apply in_map.
    + auto.
Qed.

Lemma source_of_listed st entries name src :
  data_dir st = Some entries -> NoDup (map fst entries) ->
  In (name, File src) entries ->
  source_of st (data_path st name) = Ok src.
Proof.
  intros Hd Hnd Hin. unfold source_of, read_text. rewrite Hd.
  now rewrite (@find_listed st entries name (File src) Hnd Hin).
Qed.

Lemma listing_sources_spec st entries :
  data_dir st = Some entries -> NoDup (map fst entries) ->
  map (source_of st) (listing_paths st entries) = listing_sources entries.
Proof.
  intros Hd Hnd. unfold listing_paths, listing_sources.
  assert (Hsub : forall l, incl l entries ->
            map (source_of st)
                (map (fun sub => data_path st (fst sub))
                     (filter (fun sub => is_file (snd sub)) l))
            = flat_map (fun e => match snd e with
                                 | File src => [Ok src]
                                 | SubDirectory => []
                                 end) l).
  { induction l as [|[name [src|]] l IH]; intros Hincl; simpl; auto.
    - rewrite IH by (intros x Hx; apply Hincl; now right).
      f_equal. eapply source_of_listed; eauto. apply Hincl. now left.
    - apply IH. intros x Hx; apply Hincl; now right. }
  apply Hsub, incl_refl.
Qed.

(** *** Clean and dirty runs *)

Lemma ingest_logs_clean logs : forall data,
  forallb (fun log => match to_entry log with Ok _ => true | _ => false end) logs = true ->
  ingest_logs logs data = (Ok tt, fold_left fold_entry (valid_entries logs) data).
Proof.
  induction logs as [|log logs IH]; intros data H; simpl in *; auto.
  destruct (to_entry log) as [[e|]|x|]; simpl in *; try discriminate; auto.
Qed.

Lemma ingest_logs_dirty logs : forall data,
  forallb (fun log => match to_entry log with Ok _ => true | _ => false end) logs = false ->
  forall u, fst (ingest_logs logs data) <> Ok u.
Proof.
  induction logs as [|log logs IH]; intros data H u; simpl in *; [discriminate|].
  destruct (to_entry log) as [[e|]|x|]; simpl in *; try discriminate; auto.
Qed.

(** Whatever the outcome, the catalog is the fold of some entries. *)
Lemma ingest_logs_folds logs : forall data,
  exists es, snd (ingest_logs logs data) = fold_left fold_entry es data.
Proof.
  induction logs as [|log logs IH]; intros data; simpl.
  - now exists [].
  - destruct (to_entry log) as [[e|]|x|]; simpl; try (now exists []); auto.
    destruct (IH (fold_entry data e)) as [es Hes]. now exists (e :: es).
Qed.

Lemma ingest_source_folds src data :
  exists es, snd (ingest_source src data) = fold_left fold_entry es data.
Proof.
  unfold ingest_source.
  destruct (obind (obind src json_loads) py_list) as [logs|x|]; try (now exists []).
  apply ingest_logs_folds.
Qed.

Lemma ingest_sources_folds srcs : forall data,
  exists es, snd (ingest_sources srcs data) = fold_left fold_entry es data.
Proof.
  induction srcs as [|src srcs IH]; intros data; simpl.
  - now exists [].
  - destruct (ingest_source_folds src data) as [es1 H1].
    destruct (ingest_source src data) as [[[]|x|] d]; simpl in *;
      try (now exists es1).
    destruct (IH d) as [es2 H2]. exists (es1 ++ es2)%list.
    now rewrite fold_left_app, <- H1.
Qed.

Lemma ingest_sources_clean entries : forall data,
  forallb (fun e => loads_cleanly (snd e)) entries = true ->
  ingest_sources (listing_sources entries) data
  = (Ok tt, fold_left fold_entry (listing_entries entries) data).
Proof.
  induction entries as [|[name [src|]] entries IH]; intros data H; simpl in *; auto.
  apply andb_prop in H. destruct H as [Hc H].
  unfold ingest_source. simpl.
  destruct (obind (json_loads src) py_list) as [logs|x|]; try discriminate.
  rewrite ingest_logs_clean by assumption.
  rewrite fold_left_app. now apply IH.
Qed.

Lemma ingest_sources_dirty entries : forall data,
  forallb (fun e => loads_cleanly (snd e)) entries = false ->
  forall u, fst (ingest_sources (listing_sources entries) data) <> Ok u.
Proof.
  induction entries as [|[name [src|]] entries IH]; intros data H u; simpl in *;
    [discriminate| |auto].
  unfold ingest_source. simpl.
  destruct (obind (json_loads src) py_list) as [logs|x|] eqn:E; simpl in *;
    try discriminate.
  destruct (forallb _ logs) eqn:Hl; simpl in H.
  - rewrite ingest_logs_clean by assumption. now apply IH.
  - pose proof (@ingest_logs_dirty logs data Hl) as Hd.
    destruct (ingest_logs logs data) as [[[]|x|] d]; simpl in *; try discriminate.
    exfalso. now apply (Hd tt).
Qed.

(* ===================================================================== *)
(** ** The stable descending sort *)
(* ===================================================================== *)

Lemma precedes_cons {A} (h : A) l a b : precedes l a b -> precedes (h :: l) a b.
Proof.
  intros (l1 & l2 & l3 & ->). now exists (h :: l1), l2, l3.
Qed.

Lemma precedes_head {A} (a b : A) l : In b l -> precedes (a :: l) a b.
Proof.
  intros Hin. apply in_split in Hin. destruct Hin as (l2 & l3 & ->).
  now exists [], l2, l3.
Qed.

Lemma precedes_map {A B} (f : A -> B) l a b :
  precedes l a b -> precedes (map f l) (f a) (f b).
Proof.
  intros (l1 & l2 & l3 & ->).
  exists (map f l1), (map f l2), (map f l3).
  now rewrite map_app, map_cons, map_app, map_cons.
Qed.

(** An order between two keys comes from an order between two items. *)
Lemma precedes_keys {V} (d : dict V) a b :
  precedes (keys d) a b ->
  exists va vb, precedes d (a, va) (b, vb).
Proof.
  unfold keys. revert a b. induction d as [|[k v] d IH]; intros a b (l1 & l2 & l3 & H).
  - destruct l1; discriminate.
  - destruct l1 as [|k1 l1]; simpl in H; injection H as Hk Hrest.
    + subst k.
      assert (Hin : In b (map fst d)) by (rewrite Hrest; apply in_or_app; right; now left).
      apply in_map_iff in Hin. destruct Hin as ([b' vb] & Hb & Hin). simpl in Hb. subst b'.
      exists v, vb. now apply precedes_head.
    + destruct (IH a b) as (va & vb & Hp); [now exists l1, l2, l3|].
      exists va, vb. now apply precedes_cons.
Qed.

Section SortFacts.
Variable A : Type.
Variable key : A -> Z.

Local Notation "'same_key' k" := (fun x => key x =? k) (at level 10, k at level 9, only parsing).

Lemma insert_reverse_perm x l : Permutation (x :: l) (insert_reverse key x l).
Proof.
  induction l as [|y l IH]; simpl; auto.
  destruct (key x <? key y); auto.
  rewrite perm_swap. now constructor.
Qed.

Lemma sorted_reverse_perm l : Permutation l (sorted_reverse key l).
Proof.
  induction l as [|x l IH]; simpl; auto.
  rewrite <- insert_reverse_perm. now constructor.
Qed.

Lemma insert_reverse_sorted x l :
  StronglySorted (fun a b => key b <= key a) l ->
  StronglySorted (fun a b => key b <= key a) (insert_reverse key x l).
Proof.
  induction l as [|y l IH]; simpl; intros Hs.
  - repeat constructor.
  - inversion Hs as [|? ? Hl Hy]; subst.
    destruct (Z.ltb_spec (key x) (key y)) as [Hlt|Hge].
    + constructor; auto.
      rewrite Forall_forall in *. intros z Hz.
      apply (Permutation_in _ (Permutation_sym (insert_reverse_perm x l))) in Hz.
      destruct Hz as [<-|Hz]; [lia | auto].
    + constructor; auto. constructor; [lia|].
      rewrite Forall_forall in *. intros z Hz. specialize (Hy z Hz). lia.
Qed.

Lemma sorted_reverse_sorted l :
  StronglySorted (fun a b => key b <= key a) (sorted_reverse key l).
Proof.
  induction l as [|x l IH]; simpl; [constructor | now apply insert_reverse_sorted].
Qed.

(** Stability: the items of one key are in the order they had. *)
Lemma insert_reverse_filter k x l :
  filter (same_key k) (insert_reverse key x l) = filter (same_key k) (x :: l).
Proof.
  induction l as [|y l IH]; simpl; auto.
  destruct (Z.ltb_spec (key x) (key y)) as [Hlt|Hge]; simpl; auto.
  simpl in IH. rewrite IH.
  destruct (Z.eqb_spec (key x) k), (Z.eqb_spec (key y) k); auto; lia.
Qed.

Lemma sorted_reverse_filter k l :
  filter (same_key k) (sorted_reverse key l) = filter (same_key k) l.
Proof.
  induction l as [|x l IH]; simpl; auto.
  rewrite insert_reverse_filter. simpl. now rewrite IH.
Qed.

Lemma precedes_filter (p : A -> bool) l a b :
  p a = true -> p b = true -> precedes l a b -> precedes (filter p l) a b.
Proof.
  intros Ha Hb (l1 & l2 & l3 & ->).
  exists (filter p l1), (filter p l2), (filter p l3).
  rewrite filter_app. simpl. rewrite Ha, filter_app. simpl. now rewrite Hb.
Qed.

Lemma precedes_of_filter (p : A -> bool) l a b :
  precedes (filter p l) a b -> precedes l a b.
Proof.
  induction l as [|h l IH]; simpl; intros (l1 & l2 & l3 & H).
  - destruct l1; discriminate.
  - destruct (p h).
    + destruct l1 as [|h1 l1]; simpl in H; injection H as Hh Hrest.
      * subst h. apply precedes_head.
        assert (Hin : In b (filter p l)) by (rewrite Hrest; apply in_or_app; right; now left).
        apply filter_In in Hin. tauto.
      * apply precedes_cons, IH. now exists l1, l2, l3.
    + apply precedes_cons, IH. now exists l1, l2, l3.
Qed.

Lemma sorted_reverse_stable l a b :
  key a = key b -> precedes l a b -> precedes (sorted_reverse key l) a b.
Proof.
  intros Hk Hp.
  apply (precedes_of_filter (same_key (key a))).
  rewrite sorted_reverse_filter.
  apply precedes_filter; auto; lia.
Qed.
End SortFacts.

(* ===================================================================== *)
(** ** Folding many entries *)
(* ===================================================================== *)

Lemma has_key_existsb {V} (d : dict V) k :
  has_key d k = existsb (String.eqb k) (keys d).
Proof.
  unfold has_key. induction d as [|[k' v] d IH]; simpl; auto.
  rewrite (String.eqb_sym k k'). destruct (String.eqb k' k); auto.
Qed.

Lemma keys_fold_entries es : forall data,
  keys (fold_left fold_entry es data)
  = fold_left (fun seen k => if existsb (String.eqb k) seen then seen
                             else (seen ++ [k])%list)
              (map artist_name es) (keys data).
Proof.
  induction es as [|e es IH]; intros data; simpl; auto.
  rewrite IH, keys_fold_entry, has_key_existsb.
  now destruct (existsb _ (keys data)).
Qed.

(** The catalog lists the artists in the order of their first entry. *)
Lemma keys_fold_entries_first_seen es :
  keys (fold_left fold_entry es []) = first_seen (map artist_name es).
Proof. apply keys_fold_entries. Qed.

Lemma NoDup_keys_fold_entries es : forall data,
  NoDup (keys data) -> NoDup (keys (fold_left fold_entry es data)).
Proof.
  induction es as [|e es IH]; intros data H; simpl; auto.
  apply IH. now apply NoDup_keys_fold_entry.
Qed.

Lemma count_entries_cons p e es :
  count_entries p (e :: es) = (if p e then 1 else 0) + count_entries p es.
Proof.
  unfold count_entries. cbn [filter]. destruct (p e); cbn [List.length]; lia.
Qed.

Lemma album_listens_fold data e a b :
  album_listens (fold_entry data e) a b
  = album_listens data a b + (if by_album a b e then 1 else 0).
Proof.
  unfold by_album.
  destruct (String.eqb_spec (artist_name e) a) as [<-|Ha];
    [destruct (String.eqb_spec (album_name e) b) as [<-|Hb]|]; simpl.
  - apply album_listens_fold_same.
  - unfold album_listens. rewrite album_get_fold_other by congruence. lia.
  - unfold album_listens. rewrite album_get_fold_other by congruence. lia.
Qed.

Lemma track_listens_fold data e a b t :
  track_listens (fold_entry data e) a b t
  = track_listens data a b t + (if by_track a b t e then 1 else 0).
Proof.
  unfold by_track.
  destruct (String.eqb_spec (artist_name e) a) as [<-|Ha];
    [destruct (String.eqb_spec (album_name e) b) as [<-|Hb];
     [destruct (String.eqb_spec (track_name e) t) as [<-|Ht]|]|]; simpl.
  - apply track_listens_fold_same.
  - unfold track_listens. rewrite track_get_fold_other by congruence. lia.
  - unfold track_listens. rewrite track_get_fold_other by congruence. lia.
  - unfold track_listens. rewrite track_get_fold_other by congruence. lia.
Qed.

(** Every counter is what it was plus the number of entries for it. *)
Lemma artist_listens_fold_entries es : forall data a,
  artist_listens (fold_left fold_entry es data) a
  = artist_listens data a + count_entries (by_artist a) es.
Proof.
  induction es as [|e es IH]; intros data a; simpl.
  - unfold count_entries. simpl. lia.
  - rewrite IH, artist_listens_fold, count_entries_cons. unfold by_artist. lia.
Qed.

Lemma album_listens_fold_entries es : forall data a b,
  album_listens (fold_left fold_entry es data) a b
  = album_listens data a b + count_entries (by_album a b) es.
Proof.
  induction es as [|e es IH]; intros data a b; simpl.
  - unfold count_entries. simpl. lia.
  - rewrite IH, album_listens_fold, count_entries_cons. lia.
Qed.

Lemma track_listens_fold_entries es : forall data a b t,
  track_listens (fold_left fold_entry es data) a b t
  = track_listens data a b t + count_entries (by_track a b t) es.
Proof.
  induction es as [|e es IH]; intros data a b t; simpl.
  - unfold count_entries. simpl. lia.
  - rewrite IH, track_listens_fold, count_entries_cons. lia.
Qed.

(* ===================================================================== *)
(** ** Whole runs *)
(* ===================================================================== *)

Lemma run_parser_spec st entries :
  data_dir st = Some entries ->
  exists lines parser',
    run_parser st
    = (omap (fun _ => parser')
            (fst (ingest_sources (map (source_of st) (listing_paths st entries))
                                 (Parser_data st))),
       with_data (with_stdout st (stdout st ++ lines))
                 (snd (ingest_sources (map (source_of st) (listing_paths st entries))
                                      (Parser_data st)))).
Proof.
  intros H. unfold run_parser, bind. rewrite (@Parser_init_spec st entries H).
  cbn [files_to_parse]. apply load_files_spec.
Qed.

(** A run over a listing whose files all load cleanly. *)
Lemma main_clean st entries :
  data_dir st = Some entries -> NoDup (map fst entries) ->
  forallb (fun e => loads_cleanly (snd e)) entries = true ->
  exists lines,
    main st
    = (Ok 0,
       with_stdout
         (with_out
            (with_data st (fold_left fold_entry (listing_entries entries) (Parser_data st)))
            (Some (Some (output_text
               (fold_left fold_entry (listing_entries entries) (Parser_data st))))))
         lines).
Proof.
  intros Hd Hnd Hc. destruct (@main_spec st entries Hd) as [lines Heq].
  rewrite (@listing_sources_spec st entries Hd Hnd) in Heq.
  rewrite (@ingest_sources_clean entries (Parser_data st) Hc) in Heq.
  eexists. exact Heq.
Qed.

(** A run over a listing with a file that does not load cleanly. *)
Lemma main_dirty st entries :
  data_dir st = Some entries -> NoDup (map fst entries) ->
  forallb (fun e => loads_cleanly (snd e)) entries = false ->
  (forall n, fst (main st) <> Ok n)
  /\ exit_status (fst (main st)) <> Some 0
  /\ out_dir (snd (main st)) = out_dir st.
Proof.
  intros Hd Hnd Hc. destruct (@main_spec st entries Hd) as [lines Heq].
  rewrite (@listing_sources_spec st entries Hd Hnd) in Heq.
  pose proof (@ingest_sources_dirty entries (Parser_data st) Hc) as Hno.
  rewrite Heq.
  destruct (ingest_sources (listing_sources entries) (Parser_data st)) as [[[]|x|] d];
    simpl in *.
  - exfalso. now apply (Hno tt).
  - repeat split; intros; discriminate.
  - repeat split; intros; discriminate.
Qed.

Lemma main_consistent st :
  Catalog_consistent (Parser_data st) ->
  Catalog_consistent (Parser_data (snd (main st))).
Proof.
  intros H. destruct (data_dir st) as [entries|] eqn:Hd.
  - destruct (@main_spec st entries Hd) as [lines Heq]. rewrite Heq. simpl.
    destruct (ingest_sources_folds (map (source_of st) (listing_paths st entries))
                (Parser_data st)) as [es ->].
    now apply fold_entries_consistent.
  - now rewrite main_missing.
Qed.

(* ===================================================================== *)
(** ** The properties *)
(* ===================================================================== *)

(** C1 (counter consistency).  Loading any list of files into a catalog
    whose counters are consistent leaves them consistent, and so does a
    whole run of [main]: every artist's [total_listens] is the sum of its
    albums' [total_listens], every album's [total_listens] is the sum of
    its track counts.  The catalog of a new process is empty, so the
    catalog a program run ends with is consistent whatever the files
    hold. *)
Theorem counter_consistency
  (st : State) (parser : Parser) (files : list string) :
  Catalog_consistent (Parser_data st) ->
  Catalog_consistent (Parser_data (snd (load_files parser files st)))
  /\ Catalog_consistent (Parser_data (snd (main st)))
  /\ Catalog_consistent (Parser_data (snd (program st))).
Proof.
  intros H. split; [|split].
  - destruct (load_files_spec files parser st) as (lines & p' & Heq).
    rewrite Heq. simpl.
    destruct (ingest_sources_folds (map (source_of st) files) (Parser_data st)) as [es ->].
    now apply fold_entries_consistent.
  - now apply main_consistent.
  - unfold program. apply main_consistent. constructor.
Qed.

Lemma counter_consistency_witness :
  Catalog_consistent (Parser_data scenario_state)
  /\ Catalog_consistent
       (Parser_data (snd (load_files a_parser (files_to_parse a_parser) scenario_state)))
  /\ Catalog_consistent (Parser_data (snd (main scenario_state)))
  /\ Catalog_consistent (Parser_data (snd (program scenario_state))).
Proof.
  assert (H : Catalog_consistent (Parser_data scenario_state)) by constructor.
  split; [exact H|].
  apply (counter_consistency scenario_state a_parser (files_to_parse a_parser) H).
Defined.
(** C6 (per-entry fold effect).  Folding an entry adds exactly 1 to the
    [total_listens] of its artist, to the [total_listens] of its album
    and to the counter of its track, and creates each of the three where
    it was absent; every other artist, album and track counter is what it
    was; no key that was there is removed and no counter goes down.  An
    element of the array that the validator turns into an entry is folded
    once by the loop body, which changes nothing else in the state. *)
Theorem fold_entry_effect (data : Catalog) (e : Entry) :
  let a := artist_name e in
  let b := album_name e in
  let t := track_name e in
  let data' := fold_entry data e in
  (artist_listens data' a = artist_listens data a + 1
   /\ album_listens data' a b = album_listens data a b + 1
   /\ track_listens data' a b t = track_listens data a b t + 1)
  /\ (has_key data' a = true
      /\ has_key (albums_of data' a) b = true
      /\ has_key (tracks_of data' a b) t = true)
  /\ (forall a', a' <> a -> dict_get data' a' = dict_get data a')
  /\ (forall a' b', (a', b') <> (a, b) ->
        dict_get (albums_of data' a') b' = dict_get (albums_of data a') b')
  /\ (forall a' b' t', (a', b', t') <> (a, b, t) ->
        dict_get (tracks_of data' a' b') t' = dict_get (tracks_of data a' b') t')
  /\ (forall a', has_key data a' = true -> has_key data' a' = true)
  /\ (forall a' b', has_key (albums_of data a') b' = true ->
        has_key (albums_of data' a') b' = true)
  /\ (forall a' b' t', has_key (tracks_of data a' b') t' = true ->
        has_key (tracks_of data' a' b') t' = true)
  /\ (forall a' b' t',
        artist_listens data a' <= artist_listens data' a'
        /\ album_listens data a' b' <= album_listens data' a' b'
        /\ track_listens data a' b' t' <= track_listens data' a' b' t')
  /\ (forall log st, to_entry log = Ok (Some e) ->
        load_record log st = (Ok tt, with_data st (fold_entry (Parser_data st) e))).
Proof.
  cbv zeta.
  split; [|split; [|split; [|split; [|split; [|split; [|split; [|split; [|split]]]]]]]].
  - split; [|split].
    + rewrite artist_listens_fold, String.eqb_refl. lia.
    + apply album_listens_fold_same.
    + apply track_listens_fold_same.
  - split; [|split].
    + unfold has_key. now rewrite fold_entry_get_same.
    + rewrite albums_of_fold_same. apply has_key_dict_set_same.
    + rewrite tracks_of_fold_same. apply has_key_dict_set_same.
  - intros a' Ha. now apply fold_entry_get_other.
  - intros a' b' H. now apply album_get_fold_other.
  - intros a' b' t' H. now apply track_get_fold_other.
  - intros a' H. unfold fold_entry. now apply has_key_dict_set_mono.
  - intros a' b' H.
    destruct (string_dec a' (artist_name e)) as [->|Ha].
    + rewrite albums_of_fold_same. now apply has_key_dict_set_mono.
    + now rewrite albums_of_fold_other.
  - intros a' b' t' H.
    destruct (string_dec a' (artist_name e)) as [->|Ha];
      [destruct (string_dec b' (album_name e)) as [->|Hb]|].
    + rewrite tracks_of_fold_same. now apply has_key_dict_set_mono.
    + unfold has_key in *. rewrite track_get_fold_other; congruence.
    + unfold has_key in *. rewrite track_get_fold_other; congruence.
  - intros a' b' t'.
    rewrite artist_listens_fold, album_listens_fold, track_listens_fold.
    destruct (String.eqb _ a'), (by_album a' b' e), (by_track a' b' t' e); lia.
  - intros log st H. rewrite load_record_spec. now rewrite H.
Qed.

Lemma fold_entry_effect_witness :
  artist_listens (fold_entry [] an_entry) "A" = 1
  /\ album_listens (fold_entry [] an_entry) "A" "X" = 1
  /\ track_listens (fold_entry [] an_entry) "A" "X" "T1" = 1.
Proof.
  exact (proj1 (fold_entry_effect [] an_entry)).
Defined.

Lemma ingest_logs_app before : forall after data,
  ingest_logs (before ++ after) data
  = match ingest_logs before data with
    | (Ok _, data') => ingest_logs after data'
    | other => other
    end.
Proof.
  induction before as [|log before IH]; intros after data; simpl; auto.
  destruct (to_entry log) as [[e|]|x|]; auto.
Qed.

(** C2 (entry validation), as the code has it.  For a record that
    carries the three keys, each with a [str] or [None]: when any of the
    three is [None] the validator returns [None], the loop body leaves
    the state as it is and the record can be taken out of the array
    without changing what the loop computes; when all three are strings
    (empty ones included) the validator returns the entry made of them.
    A key that is absent is not a null: looking it up raises. *)
Theorem entry_validation (log : dict pyval) (a b t : pyval) :
  dict_get log K_artist = Some a ->
  dict_get log K_album = Some b ->
  dict_get log K_track = Some t ->
  str_or_None a = true -> str_or_None b = true -> str_or_None t = true ->
  (a = PyNone \/ b = PyNone \/ t = PyNone ->
     to_entry (PyDict log) = Ok None
     /\ (forall st, load_record (PyDict log) st = (Ok tt, st))
     /\ (forall before after data,
           ingest_logs (before ++ PyDict log :: after) data
           = ingest_logs (before ++ after) data))
  /\ (forall sa sb st, a = PyStr sa -> b = PyStr sb -> t = PyStr st ->
        to_entry (PyDict log) = Ok (Some (mkEntry sa sb st))).
Proof.
  intros Ha Hb Ht Ta Tb Tt.
  assert (Hskip : a = PyNone \/ b = PyNone \/ t = PyNone -> to_entry (PyDict log) = Ok None).
  { intros Hnull. unfold to_entry, getitem, K_artist, K_album, K_track in *.
    rewrite Ha. simpl. destruct a; try discriminate; simpl; auto.
    rewrite Hb. simpl. destruct b; try discriminate; simpl; auto.
    rewrite Ht. simpl. destruct t; try discriminate; simpl; auto.
    destruct Hnull as [|[|]]; discriminate. }
  split.
  - intros Hnull. specialize (Hskip Hnull). split; [exact Hskip|split].
    + intros st. rewrite load_record_spec. now rewrite Hskip.
    + intros before after data. rewrite !ingest_logs_app.
      destruct (ingest_logs before data) as [[[]|x|] d]; auto.
      simpl. now rewrite Hskip.
  - intros sa sb st -> -> ->.
    unfold to_entry, getitem, K_artist, K_album, K_track in *.
    rewrite Ha. simpl. rewrite Hb. simpl. rewrite Ht. reflexivity.
Qed.

Lemma entry_validation_witness :
  to_entry (log_record PyNone (PyStr "Y") (PyStr "T3")) = Ok None
  /\ to_entry (log_record (PyStr "") (PyStr " ") (PyStr "T")) = Ok (Some (mkEntry "" " " "T")).
Proof.
  split.
  - apply (entry_validation
             [(K_artist, PyNone); (K_album, PyStr "Y"); (K_track, PyStr "T3")]
             eq_refl eq_refl eq_refl eq_refl eq_refl eq_refl).
    now left.
  - apply (entry_validation
             [(K_artist, PyStr ""); (K_album, PyStr " "); (K_track, PyStr "T")]
             eq_refl eq_refl eq_refl eq_refl eq_refl eq_refl); reflexivity.
Defined.

(** C2, the counterexample: a record without the artist key is not
    skipped.  The validator raises [KeyError], and a run over a file that
    holds this record ends with that exception and writes nothing. *)
Lemma absent_key_is_not_skipped :
  getitem record_without_artist K_artist = Raise (KeyError K_artist)
  /\ to_entry record_without_artist = Raise (KeyError K_artist)
  /\ to_entry record_without_artist <> Ok None
  /\ fst (program missing_key_state) = Raise (KeyError K_artist)
  /\ out_dir (snd (program missing_key_state)) = None.
Proof.
  repeat split; try reflexivity. discriminate.
Qed.

Lemma rejected_not_clean src :
  rejected_source src = true ->
  loads_cleanly (File src) = false
  /\ forall data, exists x, ingest_source (Ok src) data = (Raise x, data).
Proof.
  intros H. destruct src as [v|]; [destruct v as [| | | |s|items|items]|];
    try discriminate;
    try (split; [reflexivity | intros data; eexists; reflexivity]).
  - destruct s as [|c s]; [discriminate|].
    split; [reflexivity | intros data; eexists; reflexivity].
  - destruct items as [|[k v] items]; [discriminate|].
    split; [reflexivity | intros data; eexists; reflexivity].
Qed.

(** C3 (malformed input file), as the code has it.  Take a file of the
    input directory that [json.loads] rejects as not JSON, or that it
    parses to a value that is not an array.  Unless that value is the empty object
    or the empty string, [load_dataset] raises on the file before it
    changes the catalog, and a run over that directory does not end
    normally and leaves [./out] as it was.  The empty object and the
    empty string are iterated as no records at all: [load_dataset]
    returns and the catalog is unchanged. *)
Theorem malformed_file_is_fatal
  (st : State) (entries : list (string * node)) (name : string)
  (src : option pyval) (self : Parser) :
  data_dir st = Some entries ->
  NoDup (map fst entries) ->
  In (name, File src) entries ->
  not_a_json_array src = true ->
  (rejected_source src = true ->
     (exists x, fst (load_dataset self (data_path st name) st) = Raise x)
     /\ Parser_data (snd (load_dataset self (data_path st name) st)) = Parser_data st
     /\ (forall n, fst (program st) <> Ok n)
     /\ exit_status (fst (program st)) <> Some 0
     /\ out_dir (snd (program st)) = out_dir st)
  /\ (rejected_source src = false ->
        (src = Some (PyDict []) \/ src = Some (PyStr ""))
        /\ fst (load_dataset self (data_path st name) st) = Ok (next_parser self)
        /\ Parser_data (snd (load_dataset self (data_path st name) st)) = Parser_data st).
Proof.
  intros Hd Hnd Hin Hna.
  pose proof (@source_of_listed st entries name src Hd Hnd Hin) as Hsrc.
  split.
  - intros Hrej. destruct (rejected_not_clean src Hrej) as [Hdirty Hraise].
    destruct (Hraise (Parser_data st)) as (x & Hx).
    assert (Hall : forallb (fun e => loads_cleanly (snd e)) entries = false).
    { destruct (forallb _ entries) eqn:E; auto.
      rewrite forallb_forall in E. specialize (E _ Hin). cbn [snd] in E. congruence. }
    destruct (@main_dirty (boot st) entries Hd Hnd Hall) as (Hno & Hexit & Hout).
    repeat split; auto.
    + exists x. now rewrite load_dataset_spec, Hsrc, Hx.
    + now rewrite load_dataset_spec, Hsrc, Hx.
  - intros Hacc.
    assert (Hsrc' : src = Some (PyDict []) \/ src = Some (PyStr "")).
    { destruct src as [v|]; [destruct v as [| | | |s|items|items]|]; try discriminate.
      - destruct s; [now right | discriminate].
      - destruct items; [now left | discriminate]. }
    split; [exact Hsrc'|].
    rewrite load_dataset_spec, Hsrc.
    destruct Hsrc' as [-> | ->]; split; reflexivity.
Qed.

Lemma malformed_file_is_fatal_witness :
  (exists x,
     fst (load_dataset a_parser (data_path not_json_state "history.json") not_json_state)
     = Raise x)
  /\ exit_status (fst (program not_json_state)) <> Some 0
  /\ (exists x,
        fst (load_dataset a_parser (data_path number_state "history.json") number_state)
        = Raise x).
Proof.
  assert (Hnd : forall n : node, NoDup (map fst [("history.json", n)])).
  { intros n. constructor; [simpl; tauto | constructor]. }
  destruct (@malformed_file_is_fatal not_json_state
              [("history.json", File None)] "history.json" None a_parser
              eq_refl (Hnd _) (or_introl eq_refl) eq_refl) as [Hrej _].
  destruct (Hrej eq_refl) as (Hx & _ & _ & Hexit & _).
  destruct (@malformed_file_is_fatal number_state
              [("history.json", File (Some (PyInt 7)))] "history.json"
              (Some (PyInt 7)) a_parser
              eq_refl (Hnd _) (or_introl eq_refl) eq_refl) as [Hrej' _].
  destruct (Hrej' eq_refl) as (Hx' & _).
  repeat split; assumption.
Defined.

(** C3, the counterexample: a file that holds the JSON object [{}] is
    not a JSON array, yet [load_dataset] returns normally on it and the
    run ends with status 0, having written the empty document; and so
    it is for a file that holds the empty JSON string. *)
Lemma empty_object_file_is_accepted :
  not_a_json_array (Some (PyDict [])) = true
  /\ source_of empty_object_state (data_path empty_object_state "history.json")
     = Ok (Some (PyDict []))
  /\ fst (load_dataset a_parser (data_path empty_object_state "history.json")
            empty_object_state) = Ok (next_parser a_parser)
  /\ fst (program empty_object_state) = Ok 0
  /\ exit_status (fst (program empty_object_state)) = Some 0
  /\ out_dir (snd (program empty_object_state)) = Some (Some "{}")
  /\ not_a_json_array (Some (PyStr "")) = true
  /\ fst (load_dataset a_parser (data_path empty_string_state "history.json")
            empty_string_state) = Ok (next_parser a_parser)
  /\ exit_status (fst (program empty_string_state)) = Some 0
  /\ out_dir (snd (program empty_string_state)) = Some (Some "{}").
Proof.
  repeat split; reflexivity.
Qed.

Lemma program_clean st entries :
  data_dir st = Some entries -> NoDup (map fst entries) ->
  forallb (fun e => loads_cleanly (snd e)) entries = true ->
  fst (program st) = Ok 0
  /\ Parser_data (snd (program st)) = fold_left fold_entry (listing_entries entries) []
  /\ out_dir (snd (program st))
     = Some (Some (output_text (fold_left fold_entry (listing_entries entries) []))).
Proof.
  intros Hd Hnd Hc. unfold program.
  destruct (@main_clean (boot st) entries Hd Hnd Hc) as [lines ->].
  repeat split.
Qed.

(** C4 (scenario).  A run over an input directory whose one file holds
    the four records of the scenario ends with status 0; the document it
    serializes is artist "A" with 3 listens, album "X" with 3 listens,
    tracks "T1": 2 and "T2": 1, and the text it writes to
    [out/data.json] is that document laid out with an indentation of 4
    spaces. *)
Theorem scenario_output_correct (st : State) (name : string) :
  data_dir st = Some [(name, File (Some (PyList scenario_logs)))] ->
  fst (program st) = Ok 0
  /\ exit_status (fst (program st)) = Some 0
  /\ finalize (Parser_data (snd (program st))) = scenario_output
  /\ out_dir (snd (program st)) = Some (Some (json_dumps (JObject scenario_output)))
  /\ json_dumps (JObject scenario_output) = scenario_text.
Proof.
  intros Hd.
  assert (Hnd : NoDup (map fst [(name, File (Some (PyList scenario_logs)))])).
  { constructor; [simpl; tauto | constructor]. }
  destruct (@program_clean st _ Hd Hnd eq_refl) as (Hr & Hdata & Hout).
  rewrite Hr, Hdata, Hout.
  repeat split; reflexivity.
Qed.

Lemma scenario_output_correct_witness :
  fst (program scenario_state) = Ok 0
  /\ exit_status (fst (program scenario_state)) = Some 0
  /\ finalize (Parser_data (snd (program scenario_state))) = scenario_output
  /\ out_dir (snd (program scenario_state)) = Some (Some (json_dumps (JObject scenario_output)))
  /\ json_dumps (JObject scenario_output) = scenario_text.
Proof.
  exact (@scenario_output_correct scenario_state "history.json" eq_refl).
Defined.

(** C9 (empty input).  When the input directory exists and holds no
    file (it may hold sub-directories), the run ends with status 0 and
    [out/data.json] holds exactly the two characters of the empty JSON
    object. *)
Theorem empty_input_writes_empty_object (st : State) (entries : list (string * node)) :
  data_dir st = Some entries ->
  filter (fun sub => is_file (snd sub)) entries = [] ->
  fst (program st) = Ok 0
  /\ Parser_data (snd (program st)) = []
  /\ out_dir (snd (program st)) = Some (Some "{}").
Proof.
  intros Hd Hnone. unfold program.
  destruct (@main_spec (boot st) entries Hd) as [lines ->].
  unfold listing_paths. rewrite Hnone. repeat split.
Qed.

Lemma empty_input_writes_empty_object_witness :
  fst (program empty_dir_state) = Ok 0
  /\ Parser_data (snd (program empty_dir_state)) = []
  /\ out_dir (snd (program empty_dir_state)) = Some (Some "{}").
Proof.
  exact (@empty_input_writes_empty_object empty_dir_state [] eq_refl eq_refl).
Defined.

(** C8 (missing input directory), as the code has it.  When [./data]
    does not exist the program prints the error message and nothing
    else, returns 1 and leaves [./out] as it was.  When it exists and
    every file in it loads cleanly, the program folds the entries of all
    the files, writes the document and returns 0. *)
Theorem missing_input_directory (st : State) :
  (data_dir st = None ->
     fst (program st) = Ok 1
     /\ exit_status (fst (program st)) = Some 1
     /\ stdout (snd (program st)) = [missing_input_message ++ LF]
     /\ out_dir (snd (program st)) = out_dir st)
  /\ (forall entries,
        data_dir st = Some entries ->
        NoDup (map fst entries) ->
        forallb (fun e => loads_cleanly (snd e)) entries = true ->
        fst (program st) = Ok 0
        /\ exit_status (fst (program st)) = Some 0
        /\ Parser_data (snd (program st))
           = fold_left fold_entry (listing_entries entries) []
        /\ out_dir (snd (program st))
           = Some (Some (output_text (fold_left fold_entry (listing_entries entries) [])))).
Proof.
  split.
  - intros Hd. unfold program.
    assert (Hd' : data_dir (boot st) = None) by exact Hd.
    rewrite (@main_missing (boot st) Hd'). repeat split.
  - intros entries Hd Hnd Hc.
    destruct (@program_clean st entries Hd Hnd Hc) as (Hr & Hdata & Hout).
    rewrite Hr. repeat split; assumption.
Qed.

Lemma missing_input_directory_witness :
  (fst (program no_data_state) = Ok 1
   /\ exit_status (fst (program no_data_state)) = Some 1
   /\ stdout (snd (program no_data_state)) = [missing_input_message ++ LF]
   /\ out_dir (snd (program no_data_state)) = out_dir no_data_state)
  /\ fst (program scenario_state) = Ok 0.
Proof.
  split.
  - exact (proj1 (missing_input_directory no_data_state) eq_refl).
  - assert (Hnd : NoDup (map fst [("history.json", File (Some (PyList scenario_logs)))])).
    { constructor; [simpl; tauto | constructor]. }
    exact (proj1 (proj2 (missing_input_directory scenario_state) _ eq_refl Hnd eq_refl)).
Defined.

(** C8, the counterexample: the input directory exists, its one file is
    not JSON; the run does not exit with status 0 but ends with
    [JSONDecodeError], which makes the exit status 1, and writes
    nothing. *)
Lemma existing_directory_bad_file_exits_1 :
  data_dir not_json_state <> None
  /\ fst (program not_json_state) = Raise JSONDecodeError
  /\ exit_status (fst (program not_json_state)) = Some 1
  /\ exit_status (fst (program not_json_state)) <> Some 0
  /\ out_dir (snd (program not_json_state)) = None.
Proof.
  repeat split; try reflexivity; discriminate.
Qed.

Lemma listing_paths_env st st' entries :
  cwd st' = cwd st -> listing_paths st' entries = listing_paths st entries.
Proof.
  intros H. unfold listing_paths, data_path. now rewrite H.
Qed.

(** A run touches neither the working directory nor the input
    directory. *)
Lemma program_frame st :
  cwd (snd (program st)) = cwd st /\ data_dir (snd (program st)) = data_dir st.
Proof.
  unfold program. destruct (data_dir st) as [entries|] eqn:Hd.
  - assert (Hd0 : data_dir (boot st) = Some entries) by exact Hd.
    destruct (@main_spec (boot st) entries Hd0) as [lines ->]. now split.
  - assert (Hd0 : data_dir (boot st) = None) by exact Hd.
    rewrite (@main_missing (boot st) Hd0). now split.
Qed.

(** Two runs from the same working directory and input directory end the
    same way; either both write the same text or neither writes. *)
Lemma program_env st st' :
  cwd st' = cwd st -> data_dir st' = data_dir st ->
  fst (program st') = fst (program st)
  /\ (out_dir (snd (program st')) = out_dir (snd (program st))
      \/ (out_dir (snd (program st')) = out_dir st'
          /\ out_dir (snd (program st)) = out_dir st)).
Proof.
  intros Hc Hdd. unfold program. destruct (data_dir st) as [entries|] eqn:Hd.
  - assert (Hd0 : data_dir (boot st) = Some entries) by exact Hd.
    assert (Hd1 : data_dir (boot st') = Some entries) by (now rewrite <- Hdd in Hd).
    destruct (@main_spec (boot st) entries Hd0) as [lines ->].
    destruct (@main_spec (boot st') entries Hd1) as [lines' ->].
    cbn [fst snd].
    replace (ingest_sources (map (source_of (boot st')) (listing_paths (boot st') entries))
               (Parser_data (boot st')))
      with (ingest_sources (map (source_of (boot st)) (listing_paths (boot st) entries))
               (Parser_data (boot st))).
    + destruct (fst (ingest_sources _ (Parser_data (boot st)))); split; auto.
    + change (Parser_data (boot st')) with (Parser_data (boot st)). f_equal.
      rewrite (@listing_paths_env (boot st) (boot st')) by exact Hc.
      apply map_ext. intros fp. symmetry. apply source_of_env; [exact Hc|].
      simpl. congruence.
  - assert (Hd0 : data_dir (boot st) = None) by exact Hd.
    assert (Hd1 : data_dir (boot st') = None) by (now rewrite <- Hdd in Hd).
    rewrite (@main_missing (boot st) Hd0), (@main_missing (boot st') Hd1).
    split; auto.
Qed.

(** C7 (idempotent re-run).  Run the program, then run it again in the
    state the first run left: the first run has not touched the input
    directory, the second run ends the way the first did, and
    [out/data.json] holds after the second run exactly what it held
    after the first. *)
Theorem rerun_same_output (st : State) :
  data_dir (snd (program st)) = data_dir st
  /\ fst (program (snd (program st))) = fst (program st)
  /\ out_dir (snd (program (snd (program st)))) = out_dir (snd (program st)).
Proof.
  destruct (program_frame st) as [Hc Hd].
  destruct (@program_env st (snd (program st)) Hc Hd) as [Hr Hout].
  repeat split; auto.
  destruct Hout as [Hout|[Hout _]]; exact Hout.
Qed.

Lemma run_parser_clean st entries :
  data_dir st = Some entries -> NoDup (map fst entries) ->
  forallb (fun e => loads_cleanly (snd e)) entries = true ->
  exists parser' st',
    run_parser st = (Ok parser', st')
    /\ Parser_data st' = fold_left fold_entry (listing_entries entries) (Parser_data st)
    /\ data_dir st' = data_dir st
    /\ cwd st' = cwd st.
Proof.
  intros Hd Hnd Hc.
  destruct (@run_parser_spec st entries Hd) as (lines & p' & Heq).
  rewrite (@listing_sources_spec st entries Hd Hnd) in Heq.
  rewrite (@ingest_sources_clean entries (Parser_data st) Hc) in Heq.
  eexists _, _. split; [exact Heq|]. repeat split.
Qed.

Lemma run_parser_Ok_clean st entries parser' st' :
  data_dir st = Some entries -> NoDup (map fst entries) ->
  run_parser st = (Ok parser', st') ->
  forallb (fun e => loads_cleanly (snd e)) entries = true.
Proof.
  intros Hd Hnd Hrun.
  destruct (forallb (fun e => loads_cleanly (snd e)) entries) eqn:Hc; auto. exfalso.
  destruct (@run_parser_spec st entries Hd) as (lines & p' & Heq).
  rewrite (@listing_sources_spec st entries Hd Hnd) in Heq.
  pose proof (@ingest_sources_dirty entries (Parser_data st) Hc) as Hno.
  rewrite Heq in Hrun.
  destruct (ingest_sources (listing_sources entries) (Parser_data st)) as [[[]|x|] d];
    simpl in *; try discriminate.
  now apply (Hno tt).
Qed.

(** C10 (one catalog per process).  [Parser.__init__] leaves the class
    attribute [data] as it finds it.  So when a parser has been built and
    run over the files of the input directory, a second parser built in
    the same process and run over the same files starts from the catalog
    the first one left: it folds the entries once more on top of it, each
    artist gains again as many listens as it has entries, and when the
    process started with an empty catalog every artist, album and track
    counter ends at twice what the first parser left. *)
Theorem shared_catalog_accumulates
  (st st1 : State) (entries : list (string * node)) (first : Parser) :
  data_dir st = Some entries ->
  NoDup (map fst entries) ->
  run_parser st = (Ok first, st1) ->
  Parser_data (snd (Parser_init st1)) = Parser_data st1
  /\ exists second st2,
       run_parser st1 = (Ok second, st2)
       /\ Parser_data st1 = fold_left fold_entry (listing_entries entries) (Parser_data st)
       /\ Parser_data st2 = fold_left fold_entry (listing_entries entries) (Parser_data st1)
       /\ (forall a,
             artist_listens (Parser_data st2) a
             = artist_listens (Parser_data st1) a
               + count_entries (by_artist a) (listing_entries entries))
       /\ (Parser_data st = [] ->
           forall a b t,
             artist_listens (Parser_data st2) a = 2 * artist_listens (Parser_data st1) a
             /\ album_listens (Parser_data st2) a b = 2 * album_listens (Parser_data st1) a b
             /\ track_listens (Parser_data st2) a b t
                = 2 * track_listens (Parser_data st1) a b t).
Proof.
  intros Hd Hnd Hrun.
  split; [now rewrite Parser_init_state|].
  pose proof (@run_parser_Ok_clean st entries first st1 Hd Hnd Hrun) as Hc.
  destruct (@run_parser_clean st entries Hd Hnd Hc) as (p & st' & Hrun' & Hdata1 & Hd1 & _).
  rewrite Hrun in Hrun'. injection Hrun' as <- <-.
  rewrite Hd in Hd1.
  destruct (@run_parser_clean st1 entries Hd1 Hnd Hc) as (second & st2 & Hrun2 & Hdata2 & _).
  exists second, st2. repeat split; auto.
  - rewrite Hdata2. apply artist_listens_fold_entries.
  - rewrite Hdata2, Hdata1, H, !artist_listens_fold_entries.
    change (artist_listens [] a) with 0. lia.
  - rewrite Hdata2, Hdata1, H, !album_listens_fold_entries.
    change (album_listens [] a b) with 0. lia.
  - rewrite Hdata2, Hdata1, H, !track_listens_fold_entries.
    change (track_listens [] a b t) with 0. lia.
Qed.

Lemma shared_catalog_accumulates_witness :
  exists second st2,
    run_parser (snd (run_parser scenario_state)) = (Ok second, st2)
    /\ artist_listens (Parser_data (snd (run_parser scenario_state))) "A" = 3
    /\ artist_listens (Parser_data st2) "A" = 6.
Proof.
  assert (Hnd : NoDup (map fst [("history.json", File (Some (PyList scenario_logs)))])).
  { constructor; [simpl; tauto | constructor]. }
  destruct (@shared_catalog_accumulates scenario_state (snd (run_parser scenario_state))
              _ (next_parser a_parser) eq_refl Hnd eq_refl)
    as (_ & second & st2 & Hrun & _ & _ & _ & Hdouble).
  exists second, st2. split; [exact Hrun|]. split; [reflexivity|].
  destruct (Hdouble eq_refl "A" "X" "T1") as (Ha & _). rewrite Ha. reflexivity.
Defined.

Lemma StronglySorted_map {A B} (R : A -> A -> Prop) (R' : B -> B -> Prop) (f : A -> B) l :
  (forall x y, R x y -> R' (f x) (f y)) ->
  StronglySorted R l -> StronglySorted R' (map f l).
Proof.
  intros Hf. induction 1 as [|x l Hs IH Hall]; simpl; constructor; auto.
  rewrite Forall_forall in *. intros y Hy.
  apply in_map_iff in Hy. destruct Hy as (z & <- & Hz). auto.
Qed.

Lemma precedes_In {A} (l : list A) a b : precedes l a b -> In a l /\ In b l.
Proof.
  intros (l1 & l2 & l3 & ->). split.
  - apply in_or_app. right. now left.
  - apply in_or_app. right. right. apply in_or_app. right. now left.
Qed.

Lemma json_total_listens_asdict a :
  json_total_listens (asdict_Artist a) = Artist.total_listens a.
Proof. reflexivity. Qed.

(** What [save] serializes for a catalog without duplicate keys: the
    items sorted, each artist turned into a document. *)
Lemma finalize_sorted (data : Catalog) :
  NoDup (keys data) ->
  finalize data
  = map (fun kvp => (fst kvp, asdict_Artist (snd kvp)))
        (sorted_reverse (fun kvp => Artist.total_listens (snd kvp)) data)
  /\ keys (finalize data)
     = keys (sorted_reverse (fun kvp => Artist.total_listens (snd kvp)) data).
Proof.
  intros Hnd. unfold finalize.
  set (S := sorted_reverse _ data).
  assert (Hk : keys (map (fun kvp : string * Artist.t => (fst kvp, asdict_Artist (snd kvp))) S)
               = keys S).
  { unfold keys. rewrite map_map. reflexivity. }
  assert (HS : NoDup (keys S)).
  { apply (Permutation_NoDup (l := keys data)); auto.
    apply Permutation_map. apply sorted_reverse_perm. }
  rewrite OrderedDict_id by (now rewrite Hk). auto.
Qed.

Lemma program_Ok_clean st entries n st' :
  data_dir st = Some entries -> NoDup (map fst entries) ->
  program st = (Ok n, st') ->
  forallb (fun e => loads_cleanly (snd e)) entries = true.
Proof.
  intros Hd Hnd Hrun.
  destruct (forallb (fun e => loads_cleanly (snd e)) entries) eqn:Hc; auto. exfalso.
  destruct (@main_dirty (boot st) entries Hd Hnd Hc) as (Hno & _).
  apply (Hno n). unfold program in Hrun. now rewrite Hrun.
Qed.

(** C5 (ordering).  After a run that ended normally, the document
    written to [out/data.json] lists the artists by non-increasing
    [total_listens]; its keys are the artists in the catalog, which the
    catalog holds in the order in which they were first met across the
    files of the input directory; and of two artists with the same
    [total_listens] the one met first comes first. *)
Theorem finalized_ordering
  (st st' : State) (entries : list (string * node)) (n : Z) :
  data_dir st = Some entries ->
  NoDup (map fst entries) ->
  program st = (Ok n, st') ->
  let output := finalize (Parser_data st') in
  let encounter := first_seen (map artist_name (listing_entries entries)) in
  out_dir st' = Some (Some (json_dumps (JObject output)))
  /\ keys (Parser_data st') = encounter
  /\ StronglySorted
       (fun x y => json_total_listens (snd y) <= json_total_listens (snd x)) output
  /\ Permutation (keys output) encounter
  /\ (forall a b ja jb,
        dict_get output a = Some ja ->
        dict_get output b = Some jb ->
        json_total_listens ja = json_total_listens jb ->
        precedes encounter a b ->
        precedes (keys output) a b).
Proof.
  intros Hd Hnd Hrun. cbv zeta.
  pose proof (@program_Ok_clean st entries n st' Hd Hnd Hrun) as Hc.
  destruct (@program_clean st entries Hd Hnd Hc) as (_ & Hdata & Hout).
  rewrite Hrun in Hdata, Hout. cbn [fst snd] in Hdata, Hout.
  set (data := Parser_data st') in *.
  assert (Hkeys : keys data = first_seen (map artist_name (listing_entries entries))).
  { rewrite Hdata. apply keys_fold_entries_first_seen. }
  assert (Hnodup : NoDup (keys data)).
  { rewrite Hdata. apply NoDup_keys_fold_entries. constructor. }
  destruct (@finalize_sorted data Hnodup) as [Hfin Hfk].
  set (key := fun kvp : string * Artist.t => Artist.total_listens (snd kvp)) in *.
  set (S := sorted_reverse key data) in *.
  assert (Hperm : Permutation (keys S) (keys data)).
  { apply Permutation_map, Permutation_sym, sorted_reverse_perm. }
  split; [|split; [|split; [|split]]].
  - rewrite Hout, Hdata. reflexivity.
  - exact Hkeys.
  - rewrite Hfin.
    apply (StronglySorted_map (R := fun x y => key y <= key x)).
    + intros x y H. exact H.
    + apply sorted_reverse_sorted.
  - rewrite Hfk, <- Hkeys. exact Hperm.
  - intros a b ja jb Hga Hgb Htot Hprec.
    rewrite <- Hkeys in Hprec.
    destruct (@precedes_keys _ data a b Hprec) as (va & vb & Hp).
    destruct (@precedes_In _ data (a, va) (b, vb) Hp) as [Hina Hinb].
    assert (Hnk : NoDup (keys (finalize data))).
    { rewrite Hfk. apply (Permutation_NoDup (l := keys data)); auto.
      now apply Permutation_sym. }
    assert (Hmem : forall k v, In (k, v) data ->
                     dict_get (finalize data) k = Some (asdict_Artist v)).
    { intros k v Hin. apply In_dict_get; auto. rewrite Hfin.
      change (k, asdict_Artist v)
        with ((fun kvp : string * Artist.t => (fst kvp, asdict_Artist (snd kvp))) (k, v)).
      apply in_map. apply (Permutation_in _ (sorted_reverse_perm key data)). exact Hin. }
    rewrite (Hmem a va Hina) in Hga. rewrite (Hmem b vb Hinb) in Hgb.
    injection Hga as <-. injection Hgb as <-.
    rewrite !json_total_listens_asdict in Htot.
    rewrite Hfk.
    change a with (fst (a, va)). change b with (fst (b, vb)).
    apply precedes_map. apply sorted_reverse_stable; auto.
Qed.

Lemma finalized_ordering_witness :
  keys (finalize (Parser_data two_files_final)) = ["First"; "Second"; "Low"]
  /\ precedes (keys (finalize (Parser_data two_files_final))) "First" "Second".
Proof.
  split; [vm_compute; reflexivity|].
  assert (Hnd : NoDup (map fst
            [("a.json", File (Some (PyList
                [log_record (PyStr "Low") (PyStr "L1") (PyStr "t");
                 log_record (PyStr "First") (PyStr "F1") (PyStr "t");
                 log_record (PyStr "Second") (PyStr "S1") (PyStr "t")])));
             ("archive", SubDirectory);
             ("b.json", File (Some (PyList
                [log_record (PyStr "Second") (PyStr "S1") (PyStr "u");
                 log_record (PyStr "First") PyNone (PyStr "t");
                 log_record (PyStr "First") (PyStr "F2") (PyStr "t")])))])).
  { repeat constructor; simpl; intuition discriminate. }
  assert (Hrun : program two_files_state = (Ok 0, two_files_final))
    by (vm_compute; reflexivity).
  destruct (@finalized_ordering two_files_state two_files_final _ 0 eq_refl Hnd Hrun)
    as (_ & _ & _ & _ & Hstable).
  destruct (dict_get (finalize (Parser_data two_files_final)) "First") as [ja|] eqn:Ea;
    [|vm_compute in Ea; discriminate].
  destruct (dict_get (finalize (Parser_data two_files_final)) "Second") as [jb|] eqn:Eb;
    [|vm_compute in Eb; discriminate].
  apply (Hstable "First" "Second" ja jb Ea Eb).
  - vm_compute in Ea, Eb. injection Ea as <-. injection Eb as <-. reflexivity.
  - exists ["Low"], [], []. vm_compute. reflexivity.
Defined.

(* ===================================================================== *)
(** ** Further properties of the aggregation *)
(* ===================================================================== *)

(** The catalog at the end of any run is the fold of some entries into
    the empty catalog. *)
Lemma program_folds st :
  exists es, Parser_data (snd (program st)) = fold_left fold_entry es [].
Proof.
  unfold program. destruct (data_dir st) as [entries|] eqn:Hd.
  - assert (Hd0 : data_dir (boot st) = Some entries) by exact Hd.
    destruct (@main_spec (boot st) entries Hd0) as [lines ->]. cbn [snd].
    apply (ingest_sources_folds _ (Parser_data (boot st))).
  - assert (Hd0 : data_dir (boot st) = None) by exact Hd.
    rewrite (@main_missing (boot st) Hd0). now exists [].
Qed.

(** X1.  After a run over files that all load cleanly, every counter of
    the catalog is the number of entries of the input for it: an
    artist's [total_listens] counts the entries with that artist, an
    album's those with that artist and album, a track's those with that
    artist, album and track. *)
Theorem counters_count_entries
  (st : State) (entries : list (string * node)) (a b t : string) :
  data_dir st = Some entries ->
  NoDup (map fst entries) ->
  forallb (fun e => loads_cleanly (snd e)) entries = true ->
  artist_listens (Parser_data (snd (program st))) a
  = count_entries (by_artist a) (listing_entries entries)
  /\ album_listens (Parser_data (snd (program st))) a b
     = count_entries (by_album a b) (listing_entries entries)
  /\ track_listens (Parser_data (snd (program st))) a b t
     = count_entries (by_track a b t) (listing_entries entries).
Proof.
  intros Hd Hnd Hc.
  destruct (@program_clean st entries Hd Hnd Hc) as (_ & -> & _).
  rewrite artist_listens_fold_entries, album_listens_fold_entries,
    track_listens_fold_entries.
  repeat split.
Qed.

Lemma counters_count_entries_witness :
  artist_listens (Parser_data (snd (program two_files_state))) "First" = 2
  /\ album_listens (Parser_data (snd (program two_files_state))) "First" "F2" = 1
  /\ track_listens (Parser_data (snd (program two_files_state))) "Second" "S1" "u" = 1.
Proof.
  assert (Hnd : NoDup (map fst
            [("a.json", File (Some (PyList
                [log_record (PyStr "Low") (PyStr "L1") (PyStr "t");
                 log_record (PyStr "First") (PyStr "F1") (PyStr "t");
                 log_record (PyStr "Second") (PyStr "S1") (PyStr "t")])));
             ("archive", SubDirectory);
             ("b.json", File (Some (PyList
                [log_record (PyStr "Second") (PyStr "S1") (PyStr "u");
                 log_record (PyStr "First") PyNone (PyStr "t");
                 log_record (PyStr "First") (PyStr "F2") (PyStr "t")])))])).
  { repeat constructor; simpl; intuition discriminate. }
  pose proof (@counters_count_entries two_files_state _ "First" "F2" "t"
                eq_refl Hnd eq_refl) as (Ha & Hb & _).
  pose proof (@counters_count_entries two_files_state _ "Second" "S1" "u"
                eq_refl Hnd eq_refl) as (_ & _ & Ht).
  rewrite Ha, Hb, Ht. vm_compute. repeat split.
Defined.

Lemma sum_totals_fold_entry data e :
  sum (map Artist.total_listens (values (fold_entry data e)))
  = sum (map Artist.total_listens (values data)) + 1.
Proof.
  unfold fold_entry. rewrite sum_values_dict_set. unfold dict_get_default.
  destruct (dict_get data (artist_name e)); simpl; lia.
Qed.

Lemma sum_totals_fold_entries es : forall data,
  sum (map Artist.total_listens (values (fold_left fold_entry es data)))
  = sum (map Artist.total_listens (values data)) + Z.of_nat (List.length es).
Proof.
  induction es as [|e es IH]; intros data.
  - simpl. lia.
  - cbn [fold_left List.length]. rewrite IH, sum_totals_fold_entry. lia.
Qed.

(** X2.  After a run over files that all load cleanly, the
    [total_listens] of all the artists add up to the number of records
    that passed the validator: each is counted once, none is lost. *)
Theorem totals_add_up_to_entries (st : State) (entries : list (string * node)) :
  data_dir st = Some entries ->
  NoDup (map fst entries) ->
  forallb (fun e => loads_cleanly (snd e)) entries = true ->
  sum (map Artist.total_listens (values (Parser_data (snd (program st)))))
  = Z.of_nat (List.length (listing_entries entries)).
Proof.
  intros Hd Hnd Hc.
  destruct (@program_clean st entries Hd Hnd Hc) as (_ & -> & _).
  rewrite sum_totals_fold_entries. simpl. lia.
Qed.

Lemma totals_add_up_to_entries_witness :
  sum (map Artist.total_listens (values (Parser_data (snd (program scenario_state))))) = 3.
Proof.
  assert (Hnd : NoDup (map fst [("history.json", File (Some (PyList scenario_logs)))])).
  { constructor; [simpl; tauto | constructor]. }
  rewrite (@totals_add_up_to_entries scenario_state _ eq_refl Hnd eq_refl).
  vm_compute. reflexivity.
Defined.

Lemma dict_set_not_nil {V} (d : dict V) k v : dict_set d k v <> [].
Proof.
  destruct d as [|[k' v'] d]; simpl; [discriminate|].
  destruct (String.eqb k' k); discriminate.
Qed.

Lemma Album_update_populated a e :
  Album_populated a \/ a = Album.new -> Album_populated (Album.update a e).
Proof.
  intros H. unfold Album_populated, Album.update. cbn [Album.tracks Album.total_listens].
  assert (Hv : Forall (fun n => 1 <= n) (values (Album.tracks a))
               /\ 0 <= Album.total_listens a).
  { destruct H as [(_ & Ht & Hv)| ->]; [split; [auto|lia] | split; [constructor|simpl; lia]]. }
  destruct Hv as [Hv Ht].
  split; [apply dict_set_not_nil|]. split; [lia|].
  apply Forall_values_dict_set; auto.
  unfold dict_get_default. destruct (dict_get (Album.tracks a) (track_name e)) eqn:E; [|lia].
  pose proof (@Forall_values_dict_get _ (fun n => 1 <= n) _ _ _ Hv E). simpl in *. lia.
Qed.

Lemma Artist_update_populated a e :
  Artist_populated a \/ a = Artist.new -> Artist_populated (Artist.update a e).
Proof.
  intros H. unfold Artist_populated, Artist.update. cbn [Artist.albums Artist.total_listens].
  assert (Hv : Forall Album_populated (values (Artist.albums a))
               /\ 0 <= Artist.total_listens a).
  { destruct H as [(_ & Ht & Hv)| ->]; [split; [auto|lia] | split; [constructor|simpl; lia]]. }
  destruct Hv as [Hv Ht].
  split; [apply dict_set_not_nil|]. split; [lia|].
  apply Forall_values_dict_set; auto.
  apply Album_update_populated. unfold dict_get_default.
  destruct (dict_get (Artist.albums a) (album_name e)) eqn:E; [left|now right].
  exact (@Forall_values_dict_get _ Album_populated _ _ _ Hv E).
Qed.

Lemma fold_entry_populated data e :
  Catalog_populated data -> Catalog_populated (fold_entry data e).
Proof.
  intros H. unfold Catalog_populated, fold_entry.
  apply Forall_values_dict_set; auto.
  apply Artist_update_populated. unfold dict_get_default.
  destruct (dict_get data (artist_name e)) eqn:E; [left|now right].
  exact (@Forall_values_dict_get _ Artist_populated _ _ _ H E).
Qed.

Lemma fold_entries_populated es : forall data,
  Catalog_populated data -> Catalog_populated (fold_left fold_entry es data).
Proof.
  induction es as [|e es IH]; intros data H; simpl; auto.
  apply IH. now apply fold_entry_populated.
Qed.

(** X3.  Whatever the input and however the run ends, the catalog has
    no empty level and no zero: every artist in it has at least one
    album and a [total_listens] of at least 1, every album at least one
    track and a [total_listens] of at least 1, every track a count of at
    least 1. *)
Theorem catalog_is_populated (st : State) :
  Catalog_populated (Parser_data (snd (program st))).
Proof.
  destruct (program_folds st) as [es ->].
  apply fold_entries_populated. constructor.
Qed.

Lemma Album_update_keys_unique a e :
  Album_keys_unique a -> Album_keys_unique (Album.update a e).
Proof.
  unfold Album_keys_unique, Album.update. cbn [Album.tracks].
  apply NoDup_keys_dict_set.
Qed.

Lemma Artist_update_keys_unique a e :
  Artist_keys_unique a -> Artist_keys_unique (Artist.update a e).
Proof.
  intros [Hk Hv]. unfold Artist_keys_unique, Artist.update. cbn [Artist.albums].
  split; [now apply NoDup_keys_dict_set|].
  apply Forall_values_dict_set; auto.
  apply Album_update_keys_unique. unfold dict_get_default.
  destruct (dict_get (Artist.albums a) (album_name e)) eqn:E.
  - exact (@Forall_values_dict_get _ Album_keys_unique _ _ _ Hv E).
  - constructor.
Qed.

Lemma fold_entry_keys_unique data e :
  Catalog_keys_unique data -> Catalog_keys_unique (fold_entry data e).
Proof.
  intros [Hk Hv]. split; [now apply NoDup_keys_fold_entry|].
  unfold fold_entry. apply Forall_values_dict_set; auto.
  apply Artist_update_keys_unique. unfold dict_get_default.
  destruct (dict_get data (artist_name e)) eqn:E.
  - exact (@Forall_values_dict_get _ Artist_keys_unique _ _ _ Hv E).
  - split; constructor.
Qed.

Lemma fold_entries_keys_unique es : forall data,
  Catalog_keys_unique data -> Catalog_keys_unique (fold_left fold_entry es data).
Proof.
  induction es as [|e es IH]; intros data H; simpl; auto.
  apply IH. now apply fold_entry_keys_unique.
Qed.

Lemma dict_get_map {V W} (g : V -> W) (d : dict V) k :
  dict_get (map (fun kv => (fst kv, g (snd kv))) d) k = option_map g (dict_get d k).
Proof.
  induction d as [|[k' v] d IH]; simpl; auto.
  destruct (String.eqb k' k); auto.
Qed.

Lemma dict_get_Permutation {V} (d d' : dict V) k :
  Permutation d d' -> NoDup (keys d) -> dict_get d k = dict_get d' k.
Proof.
  intros Hp Hnd.
  assert (Hnd' : NoDup (keys d')).
  { apply (Permutation_NoDup (l := keys d)); auto. now apply Permutation_map. }
  destruct (dict_get d k) as [v|] eqn:E.
  - symmetry. apply In_dict_get; auto.
    apply (Permutation_in _ Hp). now apply dict_get_Some_In.
  - destruct (dict_get d' k) as [v'|] eqn:E'; auto.
    apply dict_get_Some_In in E'. apply (Permutation_in _ (Permutation_sym Hp)) in E'.
    rewrite (In_dict_get _ _ _ Hnd E') in E. discriminate.
Qed.

(** X4.  The document [save] serializes holds every artist of the
    catalog and nothing else, each with the document of its own record:
    looking an artist up in the sorted output gives what looking it up
    in the catalog gives, and no key is written twice at any level. *)
Theorem output_keeps_every_artist (st : State) (a : string) :
  dict_get (finalize (Parser_data (snd (program st)))) a
  = option_map asdict_Artist (dict_get (Parser_data (snd (program st))) a)
  /\ NoDup (keys (finalize (Parser_data (snd (program st)))))
  /\ Catalog_keys_unique (Parser_data (snd (program st))).
Proof.
  destruct (program_folds st) as [es Hes].
  assert (Hu : Catalog_keys_unique (Parser_data (snd (program st)))).
  { rewrite Hes. apply fold_entries_keys_unique. split; constructor. }
  destruct Hu as [Hnd Hv].
  destruct (@finalize_sorted _ Hnd) as [Hfin Hfk].
  assert (Hperm : Permutation
                    (sorted_reverse (fun kvp : string * Artist.t => Artist.total_listens (snd kvp))
                                    (Parser_data (snd (program st))))
                    (Parser_data (snd (program st)))).
  { apply Permutation_sym, sorted_reverse_perm. }
  split; [|split; [|now split]].
  - rewrite Hfin, dict_get_map. f_equal.
    apply dict_get_Permutation; auto.
    apply (Permutation_NoDup (l := keys (Parser_data (snd (program st))))); auto.
    apply Permutation_map, Permutation_sym, Hperm.
  - rewrite Hfk.
    apply (Permutation_NoDup (l := keys (Parser_data (snd (program st))))); auto.
    apply Permutation_map, Permutation_sym, Hperm.
Qed.

Lemma tracks_of_fold_other data e a b :
  (a, b) <> (artist_name e, album_name e) ->
  tracks_of (fold_entry data e) a b = tracks_of data a b.
Proof.
  intros H. unfold tracks_of. now rewrite album_get_fold_other.
Qed.

Lemma keys_albums_fold_entries es : forall data a,
  keys (albums_of (fold_left fold_entry es data) a)
  = fold_left (fun seen k => if existsb (String.eqb k) seen then seen
                             else (seen ++ [k])%list)
              (map album_name (filter (by_artist a) es)) (keys (albums_of data a)).
Proof.
  induction es as [|e es IH]; intros data a; simpl; auto.
  rewrite IH. unfold by_artist at 2.
  destruct (String.eqb_spec (artist_name e) a) as [<-|Hne]; simpl.
  - rewrite albums_of_fold_same, keys_dict_set, has_key_existsb.
    now destruct (existsb _ (keys (albums_of data (artist_name e)))).
  - rewrite albums_of_fold_other by congruence. reflexivity.
Qed.

Lemma keys_tracks_fold_entries es : forall data a b,
  keys (tracks_of (fold_left fold_entry es data) a b)
  = fold_left (fun seen k => if existsb (String.eqb k) seen then seen
                             else (seen ++ [k])%list)
              (map track_name (filter (by_album a b) es)) (keys (tracks_of data a b)).
Proof.
  induction es as [|e es IH]; intros data a b; simpl; auto.
  rewrite IH. unfold by_album at 2.
  destruct (String.eqb_spec (artist_name e) a) as [<-|Ha];
    [destruct (String.eqb_spec (album_name e) b) as [<-|Hb]|]; simpl.
  - rewrite tracks_of_fold_same, keys_dict_set, has_key_existsb.
    now destruct (existsb _ (keys (tracks_of data (artist_name e) (album_name e)))).
  - rewrite tracks_of_fold_other by congruence. reflexivity.
  - rewrite tracks_of_fold_other by congruence. reflexivity.
Qed.

(** X5.  Only the artists are sorted.  After a run over files that all
    load cleanly, the albums of an artist are in the order in which the
    input first mentions them for that artist, and the tracks of an
    album in the order in which the input first mentions them for that
    album; the document of an artist lists its albums, and the document
    of an album its tracks, in that same order. *)
Theorem albums_and_tracks_in_first_seen_order
  (st : State) (entries : list (string * node)) (a b : string) :
  data_dir st = Some entries ->
  NoDup (map fst entries) ->
  forallb (fun e => loads_cleanly (snd e)) entries = true ->
  keys (albums_of (Parser_data (snd (program st))) a)
  = first_seen (map album_name (filter (by_artist a) (listing_entries entries)))
  /\ keys (tracks_of (Parser_data (snd (program st))) a b)
     = first_seen (map track_name (filter (by_album a b) (listing_entries entries)))
  /\ (forall v : Artist.t,
        option_map json_keys (json_member (asdict_Artist v) "albums")
        = Some (keys (Artist.albums v)))
  /\ (forall v : Album.t,
        option_map json_keys (json_member (asdict_Album v) "tracks")
        = Some (keys (Album.tracks v))).
Proof.
  intros Hd Hnd Hc.
  destruct (@program_clean st entries Hd Hnd Hc) as (_ & -> & _).
  split; [apply keys_albums_fold_entries|].
  split; [apply keys_tracks_fold_entries|].
  split; intros v; simpl; unfold keys; now rewrite map_map.
Qed.

Lemma albums_and_tracks_in_first_seen_order_witness :
  keys (albums_of (Parser_data (snd (program two_files_state))) "First") = ["F1"; "F2"]
  /\ keys (tracks_of (Parser_data (snd (program two_files_state))) "Second" "S1") = ["t"; "u"].
Proof.
  assert (Hnd : NoDup (map fst
            [("a.json", File (Some (PyList
                [log_record (PyStr "Low") (PyStr "L1") (PyStr "t");
                 log_record (PyStr "First") (PyStr "F1") (PyStr "t");
                 log_record (PyStr "Second") (PyStr "S1") (PyStr "t")])));
             ("archive", SubDirectory);
             ("b.json", File (Some (PyList
                [log_record (PyStr "Second") (PyStr "S1") (PyStr "u");
                 log_record (PyStr "First") PyNone (PyStr "t");
                 log_record (PyStr "First") (PyStr "F2") (PyStr "t")])))])).
  { repeat constructor; simpl; intuition discriminate. }
  pose proof (@albums_and_tracks_in_first_seen_order two_files_state _ "First" "F1"
                eq_refl Hnd eq_refl) as (Ha & _).
  pose proof (@albums_and_tracks_in_first_seen_order two_files_state _ "Second" "S1"
                eq_refl Hnd eq_refl) as (_ & Ht & _).
  rewrite Ha, Ht. vm_compute. split; reflexivity.
Defined.

(** X6.  The validator looks the three keys up in the order artist,
    album, track and stops at the first null.  A record whose artist is
    null is skipped even when the other two keys are absent, and one
    whose album is null even when the track key is absent; the first
    key that is looked up and found absent raises [KeyError] with its
    name; an element of the array that is not an object raises
    [TypeError]. *)
Theorem to_entry_lookup_order (log : dict pyval) :
  (dict_get log K_artist = None ->
     to_entry (PyDict log) = Raise (KeyError K_artist))
  /\ (dict_get log K_artist = Some PyNone -> to_entry (PyDict log) = Ok None)
  /\ (forall a, dict_get log K_artist = Some a -> a <> PyNone ->
        (dict_get log K_album = None ->
           to_entry (PyDict log) = Raise (KeyError K_album))
        /\ (dict_get log K_album = Some PyNone -> to_entry (PyDict log) = Ok None)
        /\ (forall b, dict_get log K_album = Some b -> b <> PyNone ->
              (dict_get log K_track = None ->
                 to_entry (PyDict log) = Raise (KeyError K_track))
              /\ (dict_get log K_track = Some PyNone ->
                    to_entry (PyDict log) = Ok None)))
  /\ (forall v, (forall items, v <> PyDict items) -> to_entry v = Raise TypeError).
Proof.
  unfold to_entry, getitem, K_artist, K_album, K_track.
  split; [intros ->; reflexivity|].
  split; [intros ->; reflexivity|].
  split.
  - intros a Ha Hna. rewrite Ha. simpl.
    assert (Hn : is_None a = false) by (destruct a; congruence || reflexivity).
    rewrite Hn.
    split; [intros ->; reflexivity|].
    split; [intros ->; reflexivity|].
    intros b Hb Hnb. rewrite Hb. simpl.
    assert (Hn' : is_None b = false) by (destruct b; congruence || reflexivity).
    rewrite Hn'.
    split; intros ->; reflexivity.
  - intros v Hv. destruct v; try reflexivity. exfalso. now apply (Hv items).
Qed.

Lemma to_entry_lookup_order_witness :
  to_entry (PyDict [(K_artist, PyNone)]) = Ok None
  /\ to_entry (PyDict [(K_artist, PyStr "A"); (K_track, PyStr "T")])
     = Raise (KeyError K_album).
Proof.
  split.
  - exact (proj1 (proj2 (to_entry_lookup_order [(K_artist, PyNone)])) eq_refl).
  - refine (proj1 (proj1 (proj2 (proj2
              (to_entry_lookup_order [(K_artist, PyStr "A"); (K_track, PyStr "T")])))
              (PyStr "A") eq_refl _) eq_refl).
    discriminate.
Defined.

(** X7.  [load_dataset] does not undo what it has done.  When the array
    of a file has an element the validator raises on, the exception
    leaves [load_dataset] after the entries before that element have
    been folded into the catalog: the catalog is the fold of those, the
    elements after it are not looked at, and nothing is written. *)
Theorem load_dataset_keeps_partial_fold
  (self : Parser) (fp : string) (st : State)
  (before after : list pyval) (bad : pyval) (x : exn) :
  source_of st fp = Ok (Some (PyList (before ++ bad :: after))) ->
  forallb (fun log => match to_entry log with Ok _ => true | _ => false end) before = true ->
  to_entry bad = Raise x ->
  fst (load_dataset self fp st) = Raise x
  /\ Parser_data (snd (load_dataset self fp st))
     = fold_left fold_entry (valid_entries before) (Parser_data st)
  /\ out_dir (snd (load_dataset self fp st)) = out_dir st.
Proof.
  intros Hsrc Hb Hbad.
  rewrite load_dataset_spec, Hsrc. unfold ingest_source. cbn [obind json_loads py_list].
  rewrite ingest_logs_app, (@ingest_logs_clean before (Parser_data st) Hb).
  cbn [ingest_logs]. rewrite Hbad. repeat split.
Qed.

Lemma load_dataset_keeps_partial_fold_witness :
  fst (load_dataset a_parser (data_path partial_state "history.json") partial_state)
  = Raise TypeError
  /\ artist_listens
       (Parser_data (snd (load_dataset a_parser (data_path partial_state "history.json")
                            partial_state))) "A" = 1.
Proof.
  destruct (@load_dataset_keeps_partial_fold a_parser
              (data_path partial_state "history.json") partial_state
              [log_record (PyStr "A") (PyStr "X") (PyStr "T1")]
              [log_record (PyStr "A") (PyStr "X") (PyStr "T2")]
              (PyInt 7) TypeError eq_refl eq_refl eq_refl) as (Hr & Hd & _).
  split; [exact Hr|]. rewrite Hd. vm_compute. reflexivity.
Defined.

Lemma ingest_sources_app srcs1 : forall srcs2 data,
  ingest_sources (srcs1 ++ srcs2) data
  = match ingest_sources srcs1 data with
    | (Ok _, data') => ingest_sources srcs2 data'
    | other => other
    end.
Proof.
  induction srcs1 as [|src srcs1 IH]; intros srcs2 data; simpl; auto.
  destruct (ingest_source src data) as [[[]|x|] d]; auto.
Qed.

Lemma listing_sources_app l1 l2 :
  listing_sources (l1 ++ l2) = (listing_sources l1 ++ listing_sources l2)%list.
Proof. unfold listing_sources. apply flat_map_app. Qed.

Lemma ingest_logs_outcome logs : forall data,
  fst (ingest_logs logs data) = validate_all logs.
Proof.
  induction logs as [|log logs IH]; intros data; simpl; auto.
  destruct (to_entry log) as [[e|]|x|]; auto.
Qed.

Lemma ingest_source_outcome src data :
  fst (ingest_source (Ok src) data) = load_outcome src.
Proof.
  unfold ingest_source, load_outcome. cbn [obind].
  destruct (obind (json_loads src) py_list) as [logs|x|]; cbn [obind fst]; auto.
  apply ingest_logs_outcome.
Qed.

(** X8.  The first file that raises ends the run.  When the files listed
    before it all load cleanly and [load_dataset] raises on it, the run
    ends with an exception, [./out] is as it was, and the files listed
    after it have no influence at all: the run ends the same way, in the
    same catalog, when they are not there. *)
Theorem first_failing_file_ends_the_run
  (st : State) (before after : list (string * node)) (name : string)
  (src : option pyval) :
  data_dir st = Some (before ++ (name, File src) :: after)%list ->
  NoDup (map fst (before ++ (name, File src) :: after)%list) ->
  forallb (fun e => loads_cleanly (snd e)) before = true ->
  file_raises src = true ->
  (exists x, fst (program st) = Raise x)
  /\ out_dir (snd (program st)) = out_dir st
  /\ fst (program st)
     = fst (program (with_dir st (Some (before ++ [(name, File src)])%list)))
  /\ Parser_data (snd (program st))
     = Parser_data (snd (program (with_dir st (Some (before ++ [(name, File src)])%list)))).
Proof.
  intros Hd Hnd Hb Hbad.
  assert (Hnd' : NoDup (map fst (before ++ [(name, File src)])%list)).
  { replace (before ++ (name, File src) :: after)%list
      with ((before ++ [(name, File src)]) ++ after)%list in Hnd
      by (now rewrite <- app_assoc).
    rewrite map_app in Hnd. now apply NoDup_app_remove_r in Hnd. }
  unfold program.
  set (st' := with_dir st (Some (before ++ [(name, File src)])%list)).
  assert (Hd0 : data_dir (boot st) = Some (before ++ (name, File src) :: after)%list)
    by exact Hd.
  assert (Hd1 : data_dir (boot st') = Some (before ++ [(name, File src)])%list)
    by reflexivity.
  destruct (@main_spec (boot st) _ Hd0) as [lines ->].
  destruct (@main_spec (boot st') _ Hd1) as [lines' ->].
  rewrite (@listing_sources_spec (boot st) _ Hd0 Hnd).
  rewrite (@listing_sources_spec (boot st') _ Hd1 Hnd').
  change (Parser_data (boot st')) with (Parser_data (boot st)).
  rewrite !listing_sources_app, !ingest_sources_app.
  rewrite (@ingest_sources_clean before (Parser_data (boot st)) Hb).
  cbn [listing_sources flat_map snd app ingest_sources].
  pose proof (ingest_source_outcome src
                (fold_left fold_entry (listing_entries before) (Parser_data (boot st))))
    as Hsrc.
  unfold file_raises in Hbad.
  destruct (ingest_source (Ok src) _) as [[[]|x|] d]; cbn [fst snd] in *;
    rewrite <- Hsrc in Hbad; try discriminate.
  repeat split. now exists x.
Qed.

Lemma first_failing_file_ends_the_run_witness :
  (exists x, fst (program bad_middle_state) = Raise x)
  /\ keys (Parser_data (snd (program bad_middle_state))) = ["A"]
  /\ out_dir (snd (program bad_middle_state)) = None.
Proof.
  assert (Hnd : NoDup (map fst bad_middle_listing)).
  { repeat constructor; simpl; intuition discriminate. }
  destruct (@first_failing_file_ends_the_run bad_middle_state
              [("a.json", File (Some (PyList [log_record (PyStr "A") (PyStr "X") (PyStr "T1")])))]
              [("c.json", File (Some (PyList [log_record (PyStr "B") (PyStr "Y") (PyStr "T2")])))]
              "b.json" None eq_refl Hnd eq_refl eq_refl) as (Hx & Hout & _ & Hd).
  split; [exact Hx|]. rewrite Hd, Hout. vm_compute. split; reflexivity.
Defined.

Lemma NoDup_map_fst_filter {A B} (p : A * B -> bool) (l : list (A * B)) :
  NoDup (map fst l) -> NoDup (map fst (filter p l)).
Proof.
  induction l as [|x l IH]; simpl; intros H; [constructor|].
  inversion H as [|? ? Hnotin Hnd]; subst.
  destruct (p x); simpl; auto.
  constructor; auto.
  intros Hin. apply Hnotin.
  apply in_map_iff in Hin. destruct Hin as (y & Hy & Hin).
  apply filter_In in Hin. rewrite <- Hy. apply in_map. tauto.
Qed.

Lemma listing_sources_filter entries :
  listing_sources (filter (fun sub => is_file (snd sub)) entries)
  = listing_sources entries.
Proof.
  induction entries as [|[name [src|]] entries IH]; simpl; auto.
  now rewrite IH.
Qed.

(** X9.  Only the regular files of the input directory count: a run
    ends the same way, in the same catalog and with the same
    [out/data.json], whether the sub-directories of [./data] are there
    or not. *)
Theorem subdirectories_are_ignored (st : State) (entries : list (string * node)) :
  data_dir st = Some entries ->
  NoDup (map fst entries) ->
  let st' := with_dir st (Some (filter (fun sub => is_file (snd sub)) entries)) in
  fst (program st') = fst (program st)
  /\ Parser_data (snd (program st')) = Parser_data (snd (program st))
  /\ out_dir (snd (program st')) = out_dir (snd (program st)).
Proof.
  intros Hd Hnd st'. unfold program.
  assert (Hd0 : data_dir (boot st) = Some entries) by exact Hd.
  assert (Hd1 : data_dir (boot st')
                = Some (filter (fun sub => is_file (snd sub)) entries)) by reflexivity.
  destruct (@main_spec (boot st) _ Hd0) as [lines ->].
  destruct (@main_spec (boot st') _ Hd1) as [lines' ->].
  rewrite (@listing_sources_spec (boot st) _ Hd0 Hnd).
  rewrite (@listing_sources_spec (boot st') _ Hd1 (NoDup_map_fst_filter _ _ Hnd)).
  rewrite listing_sources_filter.
  change (Parser_data (boot st')) with (Parser_data (boot st)).
  repeat split.
Qed.

Lemma subdirectories_are_ignored_witness :
  out_dir (snd (program (with_dir two_files_state
      (Some (filter (fun sub => is_file (snd sub))
        [("a.json", File (Some (PyList
            [log_record (PyStr "Low") (PyStr "L1") (PyStr "t");
             log_record (PyStr "First") (PyStr "F1") (PyStr "t");
             log_record (PyStr "Second") (PyStr "S1") (PyStr "t")])));
         ("archive", SubDirectory);
         ("b.json", File (Some (PyList
            [log_record (PyStr "Second") (PyStr "S1") (PyStr "u");
             log_record (PyStr "First") PyNone (PyStr "t");
             log_record (PyStr "First") (PyStr "F2") (PyStr "t")])))])))))
  = out_dir (snd (program two_files_state)).
Proof.
  assert (Hnd : NoDup (map fst
            [("a.json", File (Some (PyList
                [log_record (PyStr "Low") (PyStr "L1") (PyStr "t");
                 log_record (PyStr "First") (PyStr "F1") (PyStr "t");
                 log_record (PyStr "Second") (PyStr "S1") (PyStr "t")])));
             ("archive", SubDirectory);
             ("b.json", File (Some (PyList
                [log_record (PyStr "Second") (PyStr "S1") (PyStr "u");
                 log_record (PyStr "First") PyNone (PyStr "t");
                 log_record (PyStr "First") (PyStr "F2") (PyStr "t")])))])).
  { repeat constructor; simpl; intuition discriminate. }
  exact (proj2 (proj2 (@subdirectories_are_ignored two_files_state _ eq_refl Hnd))).
Defined.

Lemma count_entries_Permutation p es es' :
  Permutation es es' -> count_entries p es = count_entries p es'.
Proof.
  intros H. unfold count_entries. f_equal.
  apply Permutation_length. clear -H.
  induction H; simpl; auto.
  - destruct (p x); auto.
  - destruct (p x), (p y); auto. apply perm_swap.
  - eapply perm_trans; eauto.
Qed.

Lemma listing_entries_Permutation e1 e2 :
  Permutation e1 e2 -> Permutation (listing_entries e1) (listing_entries e2).
Proof.
  intros H. unfold listing_entries.
  induction H; simpl; auto.
  - now apply Permutation_app_head.
  - rewrite !app_assoc. apply Permutation_app_tail, Permutation_app_comm.
  - eapply perm_trans; eauto.
Qed.

(** X10.  The counters do not depend on the order in which the input
    directory yields its files.  When the files all load cleanly, a run
    over the same entries listed in another order ends normally too, and
    every artist, album and track counter is the same; only the order of
    the keys can differ. *)
Theorem counters_independent_of_file_order
  (st1 st2 : State) (e1 e2 : list (string * node)) (a b t : string) :
  data_dir st1 = Some e1 ->
  data_dir st2 = Some e2 ->
  Permutation e1 e2 ->
  NoDup (map fst e1) ->
  forallb (fun e => loads_cleanly (snd e)) e1 = true ->
  fst (program st2) = Ok 0
  /\ artist_listens (Parser_data (snd (program st2))) a
     = artist_listens (Parser_data (snd (program st1))) a
  /\ album_listens (Parser_data (snd (program st2))) a b
     = album_listens (Parser_data (snd (program st1))) a b
  /\ track_listens (Parser_data (snd (program st2))) a b t
     = track_listens (Parser_data (snd (program st1))) a b t.
Proof.
  intros Hd1 Hd2 Hperm Hnd1 Hc1.
  assert (Hnd2 : NoDup (map fst e2)).
  { apply (Permutation_NoDup (l := map fst e1)); auto. now apply Permutation_map. }
  assert (Hc2 : forallb (fun e => loads_cleanly (snd e)) e2 = true).
  { rewrite forallb_forall in *. intros x Hx. apply Hc1.
    apply (Permutation_in _ (Permutation_sym Hperm)). exact Hx. }
  destruct (@program_clean st1 e1 Hd1 Hnd1 Hc1) as (_ & -> & _).
  destruct (@program_clean st2 e2 Hd2 Hnd2 Hc2) as (-> & -> & _).
  rewrite !artist_listens_fold_entries, !album_listens_fold_entries,
    !track_listens_fold_entries.
  pose proof (listing_entries_Permutation Hperm) as Hp.
  rewrite (@count_entries_Permutation (by_artist a) _ _ Hp).
  rewrite (@count_entries_Permutation (by_album a b) _ _ Hp).
  rewrite (@count_entries_Permutation (by_track a b t) _ _ Hp).
  repeat split.
Qed.

Lemma counters_independent_of_file_order_witness :
  fst (program two_files_swapped_state) = Ok 0
  /\ artist_listens (Parser_data (snd (program two_files_swapped_state))) "First"
     = artist_listens (Parser_data (snd (program two_files_state))) "First".
Proof.
  assert (Hnd : NoDup (map fst
            [("a.json", File (Some (PyList
                [log_record (PyStr "Low") (PyStr "L1") (PyStr "t");
                 log_record (PyStr "First") (PyStr "F1") (PyStr "t");
                 log_record (PyStr "Second") (PyStr "S1") (PyStr "t")])));
             ("archive", SubDirectory);
             ("b.json", File (Some (PyList
                [log_record (PyStr "Second") (PyStr "S1") (PyStr "u");
                 log_record (PyStr "First") PyNone (PyStr "t");
                 log_record (PyStr "First") (PyStr "F2") (PyStr "t")])))])).
  { repeat constructor; simpl; intuition discriminate. }
  assert (Hperm : forall x y z : string * node, Permutation [x; y; z] [z; y; x]).
  { intros x y z. apply (perm_trans (l' := [y; x; z])); [apply perm_swap|].
    apply (perm_trans (l' := [y; z; x])); [apply perm_skip, perm_swap|].
    apply perm_swap. }
  destruct (@counters_independent_of_file_order two_files_state two_files_swapped_state
              _ _ "First" "F1" "t" eq_refl eq_refl (Hperm _ _ _) Hnd eq_refl)
    as (Hr & Ha & _).
  split; assumption.
Defined.

(** X11.  The output is a function of the sequence of entries alone.
    Two input directories whose files all load cleanly and give the same
    entries in the same order, however these are spread over the files
    and whatever skipped records lie between them, leave the same
    catalog and the same text in [out/data.json]. *)
Theorem output_depends_on_entries_only
  (st1 st2 : State) (e1 e2 : list (string * node)) :
  data_dir st1 = Some e1 -> NoDup (map fst e1) ->
  forallb (fun e => loads_cleanly (snd e)) e1 = true ->
  data_dir st2 = Some e2 -> NoDup (map fst e2) ->
  forallb (fun e => loads_cleanly (snd e)) e2 = true ->
  listing_entries e1 = listing_entries e2 ->
  Parser_data (snd (program st1)) = Parser_data (snd (program st2))
  /\ out_dir (snd (program st1)) = out_dir (snd (program st2)).
Proof.
  intros Hd1 Hnd1 Hc1 Hd2 Hnd2 Hc2 Heq.
  destruct (@program_clean st1 e1 Hd1 Hnd1 Hc1) as (_ & -> & ->).
  destruct (@program_clean st2 e2 Hd2 Hnd2 Hc2) as (_ & -> & ->).
  now rewrite Heq.
Qed.

Lemma output_depends_on_entries_only_witness :
  out_dir (snd (program scenario_split_state)) = out_dir (snd (program scenario_state)).
Proof.
  assert (Hnd1 : NoDup ["2023.json"; "2024.json"]).
  { repeat constructor; simpl; intuition discriminate. }
  assert (Hnd2 : NoDup ["history.json"]).
  { repeat constructor; simpl; intuition discriminate. }
  exact (proj2 (@output_depends_on_entries_only scenario_split_state scenario_state
                  _ _ eq_refl Hnd1 eq_refl eq_refl Hnd2 eq_refl eq_refl)).
Defined.

Lemma numbered_progress_cons width total first file files :
  numbered_progress width total first (file :: files)
  = ((ljust ("[" ++ str_of_int (Z.of_nat first) ++ "/" ++ str_of_int total
                 ++ "] Parsing " ++ file) width ++ CR)%string
     :: numbered_progress width total (S first) files)%list.
Proof. reflexivity. Qed.

(** What a loop over [files] that ends normally has printed, and the
    parser it returns. *)
Lemma load_files_progress files : forall parser st parser' st' first,
  load_files parser files st = (Ok parser', st') ->
  current parser = Z.of_nat first ->
  stdout st'
  = (stdout st
     ++ numbered_progress (min_width parser) (py_len (files_to_parse parser)) first files)%list
  /\ current parser' = current parser + py_len files
  /\ files_to_parse parser' = files_to_parse parser
  /\ cwd st' = cwd st.
Proof.
  induction files as [|file files IH]; intros parser st parser' st' first Hrun Hcur.
  - simpl in Hrun. injection Hrun as <- <-. unfold py_len. simpl.
    rewrite app_nil_r. repeat split. lia.
  - cbn [load_files] in Hrun. unfold bind in Hrun. rewrite load_dataset_spec in Hrun.
    destruct (ingest_source (source_of st file) (Parser_data st)) as [[[]|x|] d];
      cbn [fst snd omap obind] in Hrun; try discriminate.
    destruct (IH _ _ _ _ (S first) Hrun) as (Hout & Hc & Hf & Hw).
    { cbn [next_parser current]. rewrite Hcur. lia. }
    rewrite Hout, Hc, Hf, Hw, numbered_progress_cons.
    cbn [next_parser current files_to_parse min_width with_data with_stdout stdout cwd].
    unfold progress_line. rewrite Hcur, <- app_assoc. unfold py_len.
    cbn [List.length app]. repeat split. lia.
Qed.

(** X12.  What a run that ends normally prints: for the [i]-th of the
    [n] files of the input directory the line [[i/n] Parsing path],
    padded with spaces to the width of the terminal and ended by a
    carriage return, then a newline, then the line that names the
    output file.  The counter shown starts at 1 and goes up by one per
    file. *)
Theorem progress_of_a_clean_run (st : State) (entries : list (string * node)) :
  data_dir st = Some entries ->
  NoDup (map fst entries) ->
  forallb (fun e => loads_cleanly (snd e)) entries = true ->
  stdout (snd (program st))
  = (numbered_progress (terminal_columns st)
       (py_len (listing_paths st entries)) 1 (listing_paths st entries)
     ++ [LF; ("Data written to " ++ outfile_path st ++ LF)%string])%list.
Proof.
  intros Hd Hnd Hc.
  destruct (@run_parser_clean (boot st) entries Hd Hnd Hc) as (p' & st1 & Hrun & _ & _ & Hcwd).
  unfold run_parser, bind in Hrun.
  assert (Hd0 : data_dir (boot st) = Some entries) by exact Hd.
  rewrite (@Parser_init_spec (boot st) entries Hd0) in Hrun. cbn [files_to_parse] in Hrun.
  destruct (@load_files_progress _ _ _ _ _ 1%nat Hrun eq_refl) as (Hout & _).
  unfold program, main. unfold bind at 1, data_exists. rewrite Hd0. cbn [negb].
  unfold bind at 1. rewrite (@Parser_init_spec (boot st) entries Hd0).
  unfold bind at 1. cbn [files_to_parse]. rewrite Hrun.
  unfold bind at 1, print. unfold bind at 1. rewrite save_spec.
  cbn [ret snd stdout with_stdout with_out]. rewrite Hout.
  unfold outfile_path. cbn [cwd with_stdout with_out]. rewrite Hcwd.
  cbn [min_width files_to_parse]. rewrite <- !app_assoc. reflexivity.
Qed.

Lemma progress_of_a_clean_run_witness :
  stdout (snd (program scenario_state))
  = [("[1/1] Parsing /home/user/spotify/data/history.json"
        ++ spaces 30 ++ CR)%string;
     LF;
     ("Data written to /home/user/spotify/out/data.json" ++ LF)%string].
Proof.
  assert (Hnd : NoDup (map fst [("history.json", File (Some (PyList scenario_logs)))])).
  { constructor; [simpl; tauto | constructor]. }
  rewrite (@progress_of_a_clean_run scenario_state _ eq_refl Hnd eq_refl).
  vm_compute. reflexivity.
Defined.

(** X13.  The program writes all of its output or none of it.  Either
    the run returns 0 and [out/data.json] holds the serialized catalog,
    or it ends otherwise (status 1, an exception) and [./out] is exactly
    as it was: not created, not emptied, not rewritten. *)
Theorem output_written_only_on_success (st : State) :
  (fst (program st) = Ok 0
   /\ out_dir (snd (program st))
      = Some (Some (output_text (Parser_data (snd (program st))))))
  \/ (fst (program st) <> Ok 0
      /\ out_dir (snd (program st)) = out_dir st).
Proof.
  unfold program. destruct (data_dir st) as [entries|] eqn:Hd.
  - assert (Hd0 : data_dir (boot st) = Some entries) by exact Hd.
    destruct (@main_spec (boot st) entries Hd0) as [lines ->].
    destruct (ingest_sources _ (Parser_data (boot st))) as [[[]|x|] d]; cbn.
    + left. split; reflexivity.
    + right. split; [discriminate | reflexivity].
    + right. split; [discriminate | reflexivity].
  - assert (Hd0 : data_dir (boot st) = None) by exact Hd.
    rewrite (@main_missing (boot st) Hd0). right. split; [discriminate | reflexivity].
Qed.
